(** * PriceScope server: a shallow embedding of the Express server

    The development follows the source file top-down: JavaScript strings and
    values, the regular expressions the helpers are written with, the
    currency cache ([getINRRate], [toINR]), the string helpers
    ([detectCurrency], [parseNumericPrice], [getWebsiteName],
    [extractProductNameFromUrl], [cleanHTML]) and the two request handlers
    ([POST /scrape], [POST /search]). *)

From Stdlib Require Import String Ascii ZArith NArith QArith Qround Lia Bool.
From stdpp Require Import base option list gmap.

Local Open Scope N_scope.
Local Open Scope list_scope.

(** ** JavaScript strings

    A JavaScript string is a sequence of UTF-16 code units; [length],
    [slice], [includes] and the regular expressions of the source (none has
    the [u] flag) all work on code units. *)

Definition char := N.
Definition jsstring := list char.

(** ASCII literals of the source. *)
Definition str (s : string) : jsstring :=
  map N_of_ascii (list_ascii_of_string s).

Definition ch (a : ascii) : char := N_of_ascii a.

(** The non-ASCII characters the source mentions. *)
Definition RUPEE : char := 8377.      (* U+20B9 *)
Definition EURO : char := 8364.       (* U+20AC *)
Definition POUND : char := 163.       (* U+00A3 *)
Definition YEN : char := 165.         (* U+00A5 *)
Definition NO_ENTRY : char := 9940.   (* U+26D4 *)

Definition char_eqb (a b : char) : bool := N.eqb a b.

Fixpoint jsstring_eqb (a b : jsstring) : bool :=
  match a, b with
  | [], [] => true
  | x :: a', y :: b' => char_eqb x y && jsstring_eqb a' b'
  | _, _ => false
  end.

Definition in_range (lo hi c : char) : bool := (lo <=? c) && (c <=? hi).

Definition isDigit (c : char) : bool := in_range 48 57 c.
Definition isLower (c : char) : bool := in_range 97 122 c.
Definition isUpper (c : char) : bool := in_range 65 90 c.
Definition isAlpha (c : char) : bool := isLower c || isUpper c.

(** [\w] without the [u] flag: [A-Za-z0-9_]. *)
Definition isWord (c : char) : bool := isAlpha c || isDigit c || char_eqb c 95.

(** [\s], which is also the set [String.prototype.trim] removes: WhiteSpace
    and LineTerminator of ECMAScript. *)
Definition isSpace (c : char) : bool :=
  in_range 9 13 c || char_eqb c 32 || char_eqb c 160 || char_eqb c 5760
  || in_range 8192 8202 c || char_eqb c 8232 || char_eqb c 8233
  || char_eqb c 8239 || char_eqb c 8287 || char_eqb c 12288
  || char_eqb c 65279.

(** [c.toUpperCase()] and [c.toLowerCase()] on one ASCII code unit. *)
Definition upperChar (c : char) : char := if isLower c then c - 32 else c.
Definition lowerChar (c : char) : char := if isUpper c then c + 32 else c.

(** Case mapping of whole strings restricted to ASCII letters; the full
    Unicode mappings belong to the platform (see [platform] below). *)
Definition asciiLowerCase (s : jsstring) : jsstring := map lowerChar s.
Definition asciiUpperCase (s : jsstring) : jsstring := map upperChar s.

Definition nonEmpty (s : jsstring) : bool :=
  match s with [] => false | _ :: _ => true end.

(** [s.startsWith(p)] on the remaining input. *)
Fixpoint prefixb (p s : jsstring) : bool :=
  match p, s with
  | [], _ => true
  | x :: p', y :: s' => char_eqb x y && prefixb p' s'
  | _ :: _, [] => false
  end.

(** [s.includes(p)]. *)
Fixpoint includes (s p : jsstring) : bool :=
  prefixb p s ||
  match s with
  | [] => false
  | _ :: s' => includes s' p
  end.

(** [s.trim()]. *)
Fixpoint trimStart (s : jsstring) : jsstring :=
  match s with
  | c :: s' => if isSpace c then trimStart s' else s
  | [] => []
  end.

Definition trimEnd (s : jsstring) : jsstring := rev (trimStart (rev s)).

Definition trim (s : jsstring) : jsstring := trimEnd (trimStart s).

(** [s.slice(0, n)]. *)
Definition slice0 (n : nat) (s : jsstring) : jsstring := take n s.

(** No two white-space code units side by side. *)
Fixpoint noAdjacentSpaces (s : jsstring) : bool :=
  match s with
  | c1 :: s' =>
      match s' with
      | c2 :: _ => negb (isSpace c1 && isSpace c2)
      | [] => true
      end && noAdjacentSpaces s'
  | [] => true
  end.

Definition headSpace (s : jsstring) : bool :=
  match s with c :: _ => isSpace c | [] => false end.

Definition lastSpace (s : jsstring) : bool := headSpace (rev s).

(** [s.split(sep)] for a one-character separator. *)
Fixpoint split (sep : char) (s : jsstring) : list jsstring :=
  match s with
  | [] => [[]]
  | c :: s' =>
      if char_eqb c sep then [] :: split sep s'
      else match split sep s' with
           | w :: ws => (c :: w) :: ws
           | [] => [[c]]
           end
  end.

(** ** Regular expressions

    The regular expressions of the source are transcribed into a small
    syntax and run by a backtracking matcher with the priorities of
    ECMAScript: alternatives left to right, greedy repetition longest first,
    lazy repetition shortest first, and an iteration that consumes nothing is
    rejected. *)

Module RegExp.

Inductive regex :=
| Empty
| Chr (p : char -> bool)
| Seq (r1 r2 : regex)
| Alt (r1 r2 : regex)
| Star (greedy : bool) (r : regex)
| AssertStart
| AssertEnd
| WordBoundary.

(** A continuation receives the last consumed code unit and the rest of
    the input; a successful match returns the input left after it. *)
Definition cont := option char -> jsstring -> option jsstring.

Definition accept : cont := fun _ s => Some s.

Definition wordAt (c : option char) : bool :=
  match c with Some x => isWord x | None => false end.

(** The iterations of [r*] and [r*?], with [step] the matcher of [r].  An
    iteration must consume input, so the length of the input bounds their
    number. *)
Fixpoint starLoop (step : option char -> jsstring -> cont -> option jsstring)
  (greedy : bool) (k : cont) (fuel : nat) (prev : option char) (s : jsstring)
  : option jsstring :=
  match fuel with
  | O => k prev s
  | S fuel' =>
      let again :=
        step prev s (fun p' s' =>
          if (length s' <? length s)%nat
          then starLoop step greedy k fuel' p' s'
          else None) in
      if greedy then
        match again with Some out => Some out | None => k prev s end
      else
        match k prev s with Some out => Some out | None => again end
  end.

Fixpoint rmatch (r : regex) (prev : option char) (s : jsstring) (k : cont)
  {struct r} : option jsstring :=
  match r with
  | Empty => k prev s
  | Chr p =>
      match s with
      | c :: s' => if p c then k (Some c) s' else None
      | [] => None
      end
  | Seq r1 r2 => rmatch r1 prev s (fun p' s' => rmatch r2 p' s' k)
  | Alt r1 r2 =>
      match rmatch r1 prev s k with
      | Some out => Some out
      | None => rmatch r2 prev s k
      end
  | Star greedy r1 => starLoop (rmatch r1) greedy k (length s) prev s
  | AssertStart => match prev with None => k prev s | Some _ => None end
  | AssertEnd => match s with [] => k prev s | _ :: _ => None end
  | WordBoundary =>
      if xorb (wordAt prev) (wordAt (head s)) then k prev s else None
  end.

(** Building blocks for the notation of the source. *)
Fixpoint lit (s : jsstring) : regex :=
  match s with
  | [] => Empty
  | c :: s' => Seq (Chr (char_eqb c)) (lit s')
  end.

(** A literal under the [i] flag: code units are compared after
    canonicalisation, which for an ASCII pattern is ASCII case folding. *)
Fixpoint lit_ci (s : jsstring) : regex :=
  match s with
  | [] => Empty
  | c :: s' => Seq (Chr (fun x => char_eqb (upperChar x) (upperChar c))) (lit_ci s')
  end.

Definition anyChar : regex := Chr (fun _ => true).          (* [\s\S] *)

Fixpoint times (n : nat) (r : regex) : regex :=
  match n with
  | O => Empty
  | S n' => Seq r (times n' r)
  end.

Definition atLeast (n : nat) (r : regex) : regex :=          (* r{n,} *)
  Seq (times n r) (Star true r).

Definition plus (r : regex) : regex := atLeast 1 r.         (* r+ *)
Definition opt (r : regex) : regex := Alt r Empty.          (* r? *)

(** The length of the match of [r] that starts at the head of [s], when
    there is one. *)
Definition matchAt (r : regex) (prev : option char) (s : jsstring)
  : option nat :=
  match rmatch r prev s accept with
  | Some rest => Some (length s - length rest)%nat
  | None => None
  end.

(** [re.test(s)]: is there a position where [r] matches. *)
Fixpoint testFrom (r : regex) (prev : option char) (s : jsstring) : bool :=
  match matchAt r prev s with
  | Some _ => true
  | None =>
      match s with
      | [] => false
      | c :: s' => testFrom r (Some c) s'
      end
  end.

Definition test (r : regex) (s : jsstring) : bool := testFrom r None s.

(** [s.replace(re, f)] for a global [re]: scan left to right, replace each
    match by [f] of the matched text and resume after it; [skip] counts the
    code units of the current match still to be dropped.  After an empty
    match the scan moves one code unit on, as [lastIndex] does. *)
Fixpoint replaceFrom (r : regex) (f : jsstring -> jsstring)
  (prev : option char) (skip : nat) (s : jsstring) : jsstring :=
  match s with
  | [] =>
      match skip, matchAt r prev [] with
      | O, Some _ => f []
      | _, _ => []
      end
  | c :: s' =>
      match skip with
      | S n => replaceFrom r f (Some c) n s'
      | O =>
          match matchAt r prev s with
          | Some (S n) => f (take (S n) s) ++ replaceFrom r f (Some c) n s'
          | Some O => f [] ++ c :: replaceFrom r f (Some c) O s'
          | None => c :: replaceFrom r f (Some c) O s'
          end
      end
  end.

Definition replaceAll (r : regex) (f : jsstring -> jsstring) (s : jsstring)
  : jsstring := replaceFrom r f None O s.

(** [s.replace(re, 'text')]. *)
Definition replaceWith (r : regex) (by_ : jsstring) (s : jsstring) : jsstring :=
  replaceAll r (fun _ => by_) s.

(** The matched texts, read off the syntax: what a match of [r] can
    consume, whatever the context and the priorities. *)
Inductive starL (L : jsstring -> Prop) : jsstring -> Prop :=
| starL_nil : starL L []
| starL_app m1 m2 : L m1 -> starL L m2 -> starL L (m1 ++ m2).

Fixpoint lang (r : regex) (m : jsstring) : Prop :=
  match r with
  | Empty | AssertStart | AssertEnd | WordBoundary => m = []
  | Chr p => exists c, m = [c] /\ p c = true
  | Seq r1 r2 => exists m1 m2, m = m1 ++ m2 /\ lang r1 m1 /\ lang r2 m2
  | Alt r1 r2 => lang r1 m \/ lang r2 m
  | Star _ r1 => starL (lang r1) m
  end.


(** The shape of the result of a global [replace]: the input is cut into
    code units that are copied, where no match starts, and matches, which
    are replaced. *)
Inductive Rewrites (r : regex) (f : jsstring -> jsstring)
  : jsstring -> jsstring -> Prop :=
| rw_end : Rewrites r f [] []
| rw_end_match prev :
    matchAt r prev [] = Some O -> Rewrites r f [] (f [])
| rw_copy prev c s o :
    matchAt r prev (c :: s) = None ->
    Rewrites r f s o -> Rewrites r f (c :: s) (c :: o)
| rw_empty prev c s o :
    matchAt r prev (c :: s) = Some O ->
    Rewrites r f s o -> Rewrites r f (c :: s) (f [] ++ c :: o)
| rw_match prev m rest o :
    m <> [] -> matchAt r prev (m ++ rest) = Some (length m) ->
    Rewrites r f rest o -> Rewrites r f (m ++ rest) (f m ++ o).

(** Every match of [r] starts with a code unit of the class [p]. *)
Definition startsIn (p : char -> bool) (r : regex) : Prop :=
  forall m, lang r m -> exists c m', m = c :: m' /\ p c = true.

End RegExp.

Import RegExp.

(** ** Numbers and values

    A JavaScript number is a binary64 float.  The special values are kept
    apart and a finite float is represented by the rational it denotes.
    Multiplication and division, which round, are operations of the
    [platform]; [Math.round] is exact on every float and is defined here. *)

Inductive number :=
| NaN
| PosInf
| NegInf
| Fin (q : Q).

Definition isZeroQ (q : Q) : bool := (Qnum q =? 0)%Z.

Definition isNaNb (n : number) : bool :=
  match n with NaN => true | _ => false end.

Definition isFiniteb (n : number) : bool :=
  match n with Fin _ => true | _ => false end.

(** [Math.round(x)]: the integer nearest to [x], ties towards +Infinity. *)
Definition Math_round (n : number) : number :=
  match n with
  | Fin q => Fin (inject_Z (Qfloor (q + (1 # 2))))
  | other => other
  end.

Definition isInteger (n : number) : bool :=
  match n with
  | Fin q => Qeq_bool q (inject_Z (Qfloor q))
  | _ => false
  end.

(** [x < y] on numbers. *)
Definition ltNumber (x y : number) : bool :=
  match x, y with
  | NaN, _ | _, NaN => false
  | PosInf, _ => false
  | NegInf, NegInf => false
  | NegInf, _ => true
  | Fin _, NegInf => false
  | Fin _, PosInf => true
  | Fin a, Fin b => negb (Qle_bool b a)
  end.

Definition ofNat (n : nat) : number := Fin (inject_Z (Z.of_nat n)).

(** The values that [JSON.parse] and the request bodies produce, with
    [undefined]. *)
#[warnings="-register-all"]
Inductive value :=
| VUndefined
| VNull
| VBool (b : bool)
| VNum (n : number)
| VStr (s : jsstring)
| VArr (items : list value)
| VObj (fields : list (jsstring * value)).

(** [!!v] *)
Definition truthy (v : value) : bool :=
  match v with
  | VUndefined | VNull => false
  | VBool b => b
  | VNum (Fin q) => negb (isZeroQ q)
  | VNum NaN => false
  | VNum _ => true
  | VStr s => nonEmpty s
  | VArr _ | VObj _ => true
  end.

(** [a || b] *)
Definition orElse (a b : value) : value := if truthy a then a else b.

(** Thrown errors: the failures of the services, and the [TypeError] of a
    property read on [null]/[undefined] or a call of a missing method. *)
Inductive error :=
| TypeError
| ServiceError (message : jsstring).

Inductive result (A : Type) :=
| Ok (a : A)
| Throw (e : error).
Arguments Ok {A} a.
Arguments Throw {A} e.

Definition bind {A B} (r : result A) (f : A -> result B) : result B :=
  match r with
  | Ok a => f a
  | Throw e => Throw e
  end.

Notation "'let*' x ':=' r 'in' k" := (bind r (fun x => k))
  (at level 10, x name, r at level 100, k at level 200).

Fixpoint lookupField (k : jsstring) (fields : list (jsstring * value)) : value :=
  match fields with
  | [] => VUndefined
  | (k', v) :: rest => if jsstring_eqb k k' then v else lookupField k rest
  end.

(** [v.k] for the property names the source reads ([name], [priceText],
    [currency], [description], [image], [length]). *)
Definition getProp (v : value) (k : jsstring) : result value :=
  match v with
  | VUndefined | VNull => Throw TypeError
  | VObj fields => Ok (lookupField k fields)
  | VStr s => Ok (if jsstring_eqb k (str "length") then VNum (ofNat (length s))
                  else VUndefined)
  | VArr items => Ok (if jsstring_eqb k (str "length") then VNum (ofNat (length items))
                      else VUndefined)
  | VBool _ | VNum _ => Ok VUndefined
  end.

(** ** The platform

    What the source takes from the JavaScript engine and Node, and does not
    define: the URL parser, the arithmetic of binary64, the conversions of
    ECMAScript, Unicode case mapping, number formatting and URI encoding.
    Strings are taken to be well-formed UTF-16, on which
    [encodeURIComponent] does not throw. *)

Record URL := { hostname : jsstring; pathname : jsstring }.

Record platform := {
  newURL : jsstring -> option URL;          (* [None]: throws *)
  fmul : number -> number -> number;        (* [x * y] *)
  fdiv : number -> number -> number;        (* [x / y] *)
  parseFloat : jsstring -> number;
  stringToNumber : jsstring -> number;      (* [Number(s)] *)
  toString_ : value -> jsstring;            (* [String(v)] *)
  toLowerCase : jsstring -> jsstring;
  toUpperCase : jsstring -> jsstring;
  toLocaleString_enIN : number -> jsstring; (* [n.toLocaleString('en-IN')] *)
  encodeURIComponent : jsstring -> jsstring
}.

(** [Number(v)], the conversion behind [isNaN], [*] and [<]. *)
Definition toNumber (pf : platform) (v : value) : number :=
  match v with
  | VUndefined => NaN
  | VNull => Fin 0
  | VBool b => Fin (if b then 1 else 0)
  | VNum n => n
  | VStr s => stringToNumber pf s
  | VArr _ | VObj _ => stringToNumber pf (toString_ pf v)
  end.

(** *** A reference platform

    An instance for running the model on concrete inputs: a parser for plain
    URLs, exact rational arithmetic (binary64 differs from it by a relative
    error of at most 2^-53 per operation), decimal literals made of digits
    and dots, ASCII case mapping, Indian digit grouping of integers, and
    percent-encoding of ASCII. *)

(** [new URL(url)] for URLs of the form [scheme://authority/path?query#frag]
    whose path needs no normalisation; anything else throws.  The host is
    lower-cased; percent-encoding and dot segments are not handled. *)
Fixpoint afterScheme (s : jsstring) : option jsstring :=
  match s with
  | [] => None
  | c :: s' =>
      if isAlpha c then
        (if prefixb (str "://") s' then Some (drop 3 s') else afterScheme s')
      else None
  end.

Fixpoint takeUntil (stop : char -> bool) (s : jsstring) : jsstring :=
  match s with
  | [] => []
  | c :: s' => if stop c then [] else c :: takeUntil stop s'
  end.

Fixpoint dropUntil (stop : char -> bool) (s : jsstring) : jsstring :=
  match s with
  | [] => []
  | c :: s' => if stop c then s else dropUntil stop s'
  end.

Definition isPathEnd (c : char) : bool := char_eqb c 63 || char_eqb c 35.
Definition isHostEnd (c : char) : bool := char_eqb c 47 || isPathEnd c.

Definition parseURL (url : jsstring) : option URL :=
  match afterScheme url with
  | None => None
  | Some rest =>
      let authority := takeUntil isHostEnd rest in
      let host :=
        takeUntil (char_eqb 58)
          (if includes authority (str "@")
           then drop 1 (dropUntil (char_eqb 64) authority) else authority) in
      let path := takeUntil isPathEnd (dropUntil isHostEnd rest) in
      match host with
      | [] => None
      | _ :: _ =>
          Some {| hostname := asciiLowerCase host;
                  pathname := if prefixb (str "/") path then path else str "/" |}
      end
  end.

Definition mulExact (x y : number) : number :=
  match x, y with
  | Fin a, Fin b => Fin (Qred (a * b))
  | NaN, _ | _, NaN => NaN
  | Fin a, inf | inf, Fin a =>
      if isZeroQ a then NaN
      else if Qle_bool 0 a then inf
      else match inf with PosInf => NegInf | _ => PosInf end
  | PosInf, PosInf | NegInf, NegInf => PosInf
  | _, _ => NegInf
  end.

Definition divExact (x y : number) : number :=
  match x, y with
  | Fin a, Fin b =>
      if isZeroQ b then
        (if isZeroQ a then NaN else if Qle_bool 0 a then PosInf else NegInf)
      else Fin (Qred (a / b))
  | NaN, _ | _, NaN => NaN
  | Fin _, _ => Fin 0
  | inf, Fin b => if Qle_bool 0 b then inf
                  else match inf with PosInf => NegInf | _ => PosInf end
  | _, _ => NaN
  end.

Definition digitValue (c : char) : Z := Z.of_N (c - 48).

(** The digits at the head of [s], as an integer, with their count. *)
Fixpoint readDigits (acc : Z) (count : nat) (s : jsstring)
  : Z * nat * jsstring :=
  match s with
  | c :: s' =>
      if isDigit c then readDigits (10 * acc + digitValue c) (S count) s'
      else (acc, count, s)
  | [] => (acc, count, [])
  end.

Definition parseDecimal (s : jsstring) : number :=
  let '(int, ni, rest) := readDigits 0 0 s in
  match rest with
  | c :: rest' =>
      if char_eqb c 46 then
        let '(frac, nf, _) := readDigits 0 0 rest' in
        match ni, nf with
        | O, O => NaN
        | _, _ =>
            Fin (Qred (inject_Z int + inject_Z frac / inject_Z (10 ^ Z.of_nat nf)))
        end
      else match ni with O => NaN | _ => Fin (inject_Z int) end
  | [] => match ni with O => NaN | _ => Fin (inject_Z int) end
  end.

Fixpoint decimalDigits (fuel : nat) (n : N) (acc : jsstring) : jsstring :=
  match fuel with
  | O => acc
  | S fuel' =>
      let acc' := (48 + n mod 10) :: acc in
      if n / 10 =? 0 then acc' else decimalDigits fuel' (n / 10) acc'
  end.

Definition showN (n : N) : jsstring := decimalDigits (S (N.size_nat n)) n [].

(** Groups of two digits, written on the reversed digit string. *)
Fixpoint groupPairs (fuel : nat) (rev_digits : jsstring) : jsstring :=
  match fuel, rev_digits with
  | S fuel', a :: b :: (_ :: _) as rest =>
      a :: b :: 44 :: groupPairs fuel' (drop 2 rev_digits)
  | _, _ => rev_digits
  end.

Definition groupIndian (digits : jsstring) : jsstring :=
  let r := rev digits in
  match drop 3 r with
  | [] => digits
  | more => rev (take 3 r ++ 44 :: groupPairs (length more) more)
  end.

Definition showIndian (n : number) : jsstring :=
  match n with
  | NaN => str "NaN"
  | PosInf => [8734]
  | NegInf => [45; 8734]
  | Fin q =>
      let z := Qfloor (q + (1 # 2)) in
      (if (z <? 0)%Z then [45] else []) ++ groupIndian (showN (Z.abs_N z))
  end.

Definition hexDigit (n : N) : char := if n <? 10 then 48 + n else 55 + n.

Definition isUnreserved (c : char) : bool :=
  isAlpha c || isDigit c
  || existsb (char_eqb c) [45; 95; 46; 33; 126; 42; 39; 40; 41].

Definition percentEncode (s : jsstring) : jsstring :=
  flat_map (fun c =>
    if isUnreserved c then [c]
    else [37; hexDigit (c / 16 mod 16); hexDigit (c mod 16)]) s.

Definition showValue (v : value) : jsstring :=
  match v with
  | VUndefined => str "undefined"
  | VNull => str "null"
  | VBool true => str "true"
  | VBool false => str "false"
  | VNum n => showIndian n
  | VStr s => s
  | VArr _ => []
  | VObj _ => str "[object Object]"
  end.

Definition refPlatform : platform :=
  {| newURL := parseURL;
     fmul := mulExact;
     fdiv := divExact;
     parseFloat := parseDecimal;
     stringToNumber := parseDecimal;
     toString_ := showValue;
     toLowerCase := asciiLowerCase;
     toUpperCase := asciiUpperCase;
     toLocaleString_enIN := showIndian;
     encodeURIComponent := percentEncode |}.

(** ** The server *)

Section Server.

Variable pf : platform.

(** *** Currency: the exchange-rate cache

    [exchangeRates] and [ratesFetchedAt] are the two module-level variables;
    the table maps a currency code to the units of that currency per rupee. *)

Record rateCache := {
  exchangeRates : gmap jsstring number;
  ratesFetchedAt : Z
}.

Definition initialCache : rateCache :=
  {| exchangeRates := ∅; ratesFetchedAt := 0 |}.

(** The table of the [catch] branch. *)
Definition fallbackRates : gmap jsstring number :=
  list_to_map
    [ (str "USD", Fin (12 # 1000)); (str "EUR", Fin (11 # 1000));
      (str "GBP", Fin (95 # 10000)); (str "JPY", Fin (18 # 10));
      (str "INR", Fin 1) ].

(** The names every object inherits from [Object.prototype]: reading one
    of them from the table gives a function or an object, not [undefined]. *)
Definition inheritedKeys : list jsstring :=
  map str
    [ "constructor"; "hasOwnProperty"; "isPrototypeOf";
      "propertyIsEnumerable"; "toLocaleString"; "toString"; "valueOf";
      "__defineGetter__"; "__defineSetter__"; "__lookupGetter__";
      "__lookupSetter__"; "__proto__" ]%string.

Definition inherited (key : jsstring) : bool :=
  existsb (jsstring_eqb key) inheritedKeys.

(** Truthiness of [exchangeRates[key]]. *)
Definition rateTruthy (rates : gmap jsstring number) (key : jsstring) : bool :=
  match rates !! key with
  | Some n => truthy (VNum n)
  | None => inherited key
  end.

(** The test that guards the refresh, line 30. *)
Definition needsRefresh (now : Z) (key : jsstring) (st : rateCache) : bool :=
  (30 * 60 * 1000 <? now - ratesFetchedAt st)%Z
  || negb (rateTruthy (exchangeRates st) key).

(** The refresh itself, lines 31-43.  [service] is the outcome of the GET:
    the [rates] table of the reply, or [None] when the request throws. *)
Definition refresh (now : Z) (service : option (gmap jsstring number))
  (st : rateCache) : rateCache :=
  match service with
  | Some rates => {| exchangeRates := rates; ratesFetchedAt := now |}
  | None => {| exchangeRates := fallbackRates;
               ratesFetchedAt := ratesFetchedAt st |}
  end.

(** [getINRRate(fromCurrency = 'USD')].  [now] is [Date.now()].  The rate
    read at the end is a number of the table, or an inherited function,
    whose quotient is [NaN], or [undefined]. *)
Definition getINRRate (now : Z) (service : option (gmap jsstring number))
  (fromCurrency : value) (st : rateCache) : result number * rateCache :=
  let fromCurrency :=
    match fromCurrency with VUndefined => VStr (str "USD") | v => v end in
  let key :=
    match fromCurrency with VStr s => s | v => toString_ pf v end in
  let st' := if needsRefresh now key st then refresh now service st else st in
  match fromCurrency with
  | VStr s =>
      let upper := toUpperCase pf s in
      if jsstring_eqb upper (str "INR") then (Ok (Fin 1), st')
      else
        (Ok (match exchangeRates st' !! upper with
             | Some rate =>
                 if truthy (VNum rate) then fdiv pf (Fin 1) rate else Fin 83
             | None => if inherited upper then NaN else Fin 83
             end), st')
  | _ => (Throw TypeError, st')
  end.

(** [toINR(amount, currency = 'USD')] *)
Definition toINR (now : Z) (service : option (gmap jsstring number))
  (amount currency : value) (st : rateCache) : result value * rateCache :=
  if negb (truthy amount) || isNaNb (toNumber pf amount) then (Ok VNull, st)
  else
    match getINRRate now service currency st with
    | (Ok rate, st') =>
        (Ok (VNum (Math_round (fmul pf (toNumber pf amount) rate))), st')
    | (Throw e, st') => (Throw e, st')
    end.

(** *** Helpers on price strings *)

(** [detectCurrency(priceStr)].  On an array [includes] is the array
    method and [toLowerCase] is missing. *)
Definition detectCurrency (priceStr : value) : result jsstring :=
  if negb (truthy priceStr) then Ok (str "USD")
  else
    match priceStr with
    | VStr s =>
        if includes s [RUPEE] || includes (toLowerCase pf s) (str "inr")
        then Ok (str "INR")
        else if includes s [EURO] then Ok (str "EUR")
        else if includes s [POUND] then Ok (str "GBP")
        else if includes s [YEN] then Ok (str "JPY")
        else Ok (str "USD")
    | VArr items =>
        if existsb (fun v => match v with
                             | VStr s => jsstring_eqb s [RUPEE]
                             | _ => false
                             end) items
        then Ok (str "INR") else Throw TypeError
    | _ => Throw TypeError
    end.

(** [/[^\d.,]/g] and [/,/g] *)
Definition reNotPriceChar : regex :=
  Chr (fun c => negb (isDigit c || char_eqb c 46 || char_eqb c 44)).
Definition reComma : regex := Chr (char_eqb 44).

(** [parseNumericPrice(str)] *)
Definition parseNumericPrice (s : value) : result value :=
  if negb (truthy s) then Ok VNull
  else
    match s with
    | VStr s =>
        let cleaned := replaceWith reComma [] (replaceWith reNotPriceChar [] s) in
        let num := parseFloat pf cleaned in
        Ok (if isNaNb num then VNull else VNum num)
    | _ => Throw TypeError
    end.

(** *** Helpers on URLs; [None] from [newURL] is a thrown [TypeError],
    caught by the helper itself. *)

(** [s.replace('www.', '')]: the first occurrence only. *)
Fixpoint removeFirst (p s : jsstring) : jsstring :=
  if prefixb p s then drop (length p) s
  else match s with
       | [] => []
       | c :: s' => c :: removeFirst p s'
       end.

Definition getWebsiteName (url : jsstring) : jsstring :=
  match newURL pf url with
  | Some u =>
      let host := removeFirst (str "www.") (hostname u) in
      let name := default [] (head (split (ch ".") host)) in
      map upperChar (take 1 name) ++ drop 1 name
  | None => str "Website"
  end.

(** [/[a-zA-Z]{3,}/] *)
Definition reLetters3 : regex := atLeast 3 (Chr isAlpha).

(** [/^\/?(dp|p|product|item|pd)$/] *)
Definition reBoilerplate : regex :=
  Seq AssertStart
   (Seq (opt (lit (str "/")))
     (Seq (Alt (lit (str "dp")) (Alt (lit (str "p")) (Alt (lit (str "product"))
            (Alt (lit (str "item")) (lit (str "pd"))))))
          AssertEnd)).

(** [/[-_]/g] *)
Definition reSeparator : regex := Chr (fun c => char_eqb c 45 || char_eqb c 95).

(** [/\b[a-f0-9]{8,}\b/gi] *)
Definition reHexId : regex :=
  Seq WordBoundary
   (Seq (atLeast 8 (Chr (fun c => in_range 97 102 (lowerChar c) || isDigit c)))
        WordBoundary).

(** [/\b\d{4,}\b/g] *)
Definition reLongNumber : regex :=
  Seq WordBoundary (Seq (atLeast 4 (Chr isDigit)) WordBoundary).

(** [/\s+/g] *)
Definition reSpaces : regex := plus (Chr isSpace).

(** [/\b\w/g] *)
Definition reWordStart : regex := Seq WordBoundary (Chr isWord).

(** The body of the [for] loop over the segments: keep the longest
    qualifying one, the first among equals. *)
Definition pickSlug (best seg : jsstring) : jsstring :=
  if (length best <? length seg)%nat && test reLetters3 seg
     && negb (test reBoilerplate seg)
  then seg else best.

(** [extractProductNameFromUrl(url)]; [None] is [null]. *)
Definition extractProductNameFromUrl (url : jsstring) : option jsstring :=
  match newURL pf url with
  | None => None
  | Some parsed =>
      let segments := filter (fun s => Is_true (nonEmpty s))
                        (split (ch "/") (pathname parsed)) in
      let bestSlug := foldl pickSlug [] segments in
      if nonEmpty bestSlug then
        let name :=
          trim (replaceWith reSpaces (str " ")
                 (replaceWith reLongNumber []
                   (replaceWith reHexId []
                     (replaceWith reSeparator (str " ") bestSlug)))) in
        let name := replaceAll reWordStart (map upperChar) name in
        if (3 <? length name)%nat then Some name else None
      else None
  end.

(** *** Cleaner *)

(** [/<tag[\s\S]*?<\/tag>/gi] *)
Definition reElement (tag : string) : regex :=
  Seq (lit_ci (str "<" ++ str tag))
   (Seq (Star false anyChar) (lit_ci (str "</" ++ str tag ++ str ">"))).

(** [/<!--[\s\S]*?-->/g] *)
Definition reComment : regex :=
  Seq (lit (str "<!--")) (Seq (Star false anyChar) (lit (str "-->"))).

(** [/<[^>]+>/g] *)
Definition reTag : regex :=
  Seq (Chr (char_eqb 60))
   (Seq (plus (Chr (fun c => negb (char_eqb c 62)))) (Chr (char_eqb 62))).

(** [/\s{2,}/g] *)
Definition reSpaces2 : regex := atLeast 2 (Chr isSpace).

(** The chain of [replace] calls up to [trim], lines 230-246. *)
Definition stripHTML (html : jsstring) : jsstring :=
  let s := replaceWith (reElement "script") [] html in
  let s := replaceWith (reElement "style") [] s in
  let s := replaceWith (reElement "nav") [] s in
  let s := replaceWith (reElement "footer") [] s in
  let s := replaceWith (reElement "header") [] s in
  let s := replaceWith (reElement "aside") [] s in
  let s := replaceWith (reElement "iframe") [] s in
  let s := replaceWith (reElement "svg") [] s in
  let s := replaceWith reComment [] s in
  let s := replaceWith reTag (str " ") s in
  let s := replaceWith (lit (str "&nbsp;")) (str " ") s in
  let s := replaceWith (lit (str "&amp;")) (str "&") s in
  let s := replaceWith (lit (str "&lt;")) (str "<") s in
  let s := replaceWith (lit (str "&gt;")) (str ">") s in
  let s := replaceWith reSpaces2 (str " ") s in
  trim s.

(** [cleanHTML(html)] *)
Definition cleanHTML (html : jsstring) : jsstring :=
  slice0 (N.to_nat 8000) (stripHTML html).

(** *** POST /scrape *)

(** What the handler gets from outside: the environment flag, the two
    fetchers, the Gemini extractor (the value [JSON.parse] returned, or a
    throw once every model has failed), the clock and the exchange-rate
    service as seen by [getINRRate]. *)
Record world := {
  IS_CLOUD : bool;
  fetchRenderedHTML : jsstring -> result jsstring;
  fetchWithAxios : jsstring -> result value;
  extractWithGemini : jsstring -> jsstring -> result value;
  clock : Z;
  rateService : option (gmap jsstring number)
}.

(** The object handed to [res.json] by the handler. *)
Record product := {
  blocked : bool;
  name : value;
  searchQuery : value;
  price : value;
  priceText : value;
  originalPrice : value;
  currency : value;
  description : value;
  image : value;
  url : jsstring;
  websiteName : jsstring;
  blockerMessage : option jsstring
}.

Inductive response :=
| BadRequest (message : jsstring)          (* status 400 *)
| Json (body : product)                    (* status 200 *)
| ServerError (prefix : jsstring) (e : error).  (* status 500 *)

Definition ofOption (o : option jsstring) : value :=
  match o with Some s => VStr s | None => VNull end.

(** The two messages, lines 321 and 421. *)
Definition blockedMessage (site : jsstring) : jsstring :=
  NO_ENTRY :: str " " ++ site ++
  str " has blocked access to this page. We've extracted the product name from the URL and will search for similar products.".

Definition blockedMessageCatch (site : jsstring) : jsstring :=
  NO_ENTRY :: str " " ++ site ++
  str " has blocked access to this page. Showing similar products based on the URL.".

(** [blockedResponse(reason)]; the reason is only logged. *)
Definition blockedResponse (url : jsstring) : response :=
  let slugName := ofOption (extractProductNameFromUrl url) in
  Json {| blocked := true;
          name := orElse slugName (VStr (str "Product"));
          searchQuery := slugName;
          price := VNull;
          priceText := VNull;
          originalPrice := VUndefined;
          currency := VUndefined;
          description := VArr [];
          image := VStr [];
          url := url;
          websiteName := getWebsiteName url;
          blockerMessage := Some (blockedMessage (getWebsiteName url)) |}.

(** Step 1, lines 329-351: the fetched [html] and [fetchFailed]. *)
Definition fetchHTML (w : world) (url : jsstring) : value * bool :=
  let html :=
    if IS_CLOUD w then VUndefined
    else match fetchRenderedHTML w url with
         | Ok h => VStr h
         | Throw _ => VUndefined
         end in
  if truthy html then (html, false)
  else match fetchWithAxios w url with
       | Ok data => (data, false)
       | Throw _ => (html, true)
       end.

(** [v.length < n], for a [v] that is not [null] or [undefined]. *)
Definition lengthBelow (v : value) (n : nat) : bool :=
  match getProp v (str "length") with
  | Ok len => ltNumber (toNumber pf len) (ofNat n)
  | Throw _ => false
  end.

(** The test of line 354. *)
Definition fetchBlocked (html : value) (fetchFailed : bool) : bool :=
  fetchFailed || negb (truthy html) || lengthBelow html 500.

(** [isUnknown], lines 379-381. *)
Definition isUnknown (name : value) : result bool :=
  if negb (truthy name) then Ok true
  else match name with
       | VStr s => Ok (includes (toLowerCase pf s) (str "unknown")
                       || (length (trim s) <? 3)%nat)
       | _ => Throw TypeError
       end.

(** [v.slice(0, 3)] *)
Definition slice3 (v : value) : result value :=
  match v with
  | VArr items => Ok (VArr (take 3 items))
  | VStr s => Ok (VStr (take 3 s))
  | _ => Throw TypeError
  end.

(** [extracted.k], once [extracted] is known not to be [null]. *)
Definition field (extracted : value) (k : string) : value :=
  match getProp extracted (str k) with
  | Ok v => v
  | Throw _ => VUndefined
  end.

(** The body of the [try], from the test of line 354 on; the cache is
    returned as the body left it, also when it throws. *)
Definition scrapeBody (w : world) (url : jsstring) (st : rateCache)
  : result response * rateCache :=
  let '(html, fetchFailed) := fetchHTML w url in
  if fetchBlocked html fetchFailed then (Ok (blockedResponse url), st)
  else
    match html with
    | VStr html =>
        let cleanedText := cleanHTML html in
        if (length cleanedText <? 200)%nat then (Ok (blockedResponse url), st)
        else
          match (let* ex := extractWithGemini w cleanedText url in
                 let* _ := getProp ex (str "name") in Ok ex) with
          | Throw _ => (Ok (blockedResponse url), st)
          | Ok extracted =>
              match isUnknown (field extracted "name") with
              | Throw e => (Throw e, st)
              | Ok true => (Ok (blockedResponse url), st)
              | Ok false =>
                  match
                    (let* numericPrice := parseNumericPrice (field extracted "priceText") in
                     let* currency :=
                       (if truthy (field extracted "currency") then Ok (field extracted "currency")
                        else let* c := detectCurrency (field extracted "priceText") in
                             Ok (VStr c)) in
                     Ok (numericPrice, currency))
                  with
                  | Throw e => (Throw e, st)
                  | Ok (numericPrice, currency) =>
                      match toINR (clock w) (rateService w) numericPrice currency st with
                      | (Throw e, st') => (Throw e, st')
                      | (Ok priceINR, st') =>
                          (let* description :=
                             slice3 (orElse (field extracted "description") (VArr [])) in
                           Ok (Json
                             {| blocked := false;
                                name := field extracted "name";
                                searchQuery := field extracted "name";
                                price := priceINR;
                                priceText :=
                                  if truthy priceINR
                                  then VStr (RUPEE ::
                                          toLocaleString_enIN pf (toNumber pf priceINR))
                                  else field extracted "priceText";
                                originalPrice := field extracted "priceText";
                                currency := currency;
                                description := description;
                                image := orElse (field extracted "image") (VStr []);
                                url := url;
                                websiteName := getWebsiteName url;
                                blockerMessage := None |}),
                           st')
                      end
                  end
              end
          end
    | _ => (Throw TypeError, st)
    end.

(** The [catch] of the handler, lines 406-425. *)
Definition scrapeCatch (url : jsstring) (e : error) : response :=
  match extractProductNameFromUrl url with
  | Some slugName =>
      if nonEmpty slugName then
        Json {| blocked := true;
                name := VStr slugName;
                searchQuery := VStr slugName;
                price := VNull;
                priceText := VNull;
                originalPrice := VUndefined;
                currency := VUndefined;
                description := VArr [];
                image := VStr [];
                url := url;
                websiteName := getWebsiteName url;
                blockerMessage := Some (blockedMessageCatch (getWebsiteName url)) |}
      else ServerError (str "Failed to extract product data: ") e
  | None => ServerError (str "Failed to extract product data: ") e
  end.

(** The handler of [POST /scrape]; [None] is a body without [url]. *)
Definition scrape (w : world) (url : option jsstring) (st : rateCache)
  : response * rateCache :=
  match url with
  | None => (BadRequest (str "URL is required"), st)
  | Some url =>
      if nonEmpty url then
        match scrapeBody w url st with
        | (Ok r, st') => (r, st')
        | (Throw e, st') => (scrapeCatch url e, st')
        end
      else (BadRequest (str "URL is required"), st)
  end.

(** *** POST /search *)

Record retailer := {
  retailerName : jsstring;
  domain : jsstring;
  searchPath : jsstring
}.

Definition retailers : list retailer :=
  [ {| retailerName := str "Amazon India"; domain := str "amazon.in";
       searchPath := str "s?k=" |};
    {| retailerName := str "Flipkart"; domain := str "flipkart.com";
       searchPath := str "search?q=" |};
    {| retailerName := str "Myntra"; domain := str "myntra.com";
       searchPath := str "search?rawQuery=" |} ].

(** An entry of [products]. *)
Record entry := {
  entryName : value;
  entryPrice : value;
  entryPriceText : value;
  entryOriginalPrice : value;
  entryDescription : list jsstring;
  entryImage : jsstring;
  entryUrl : jsstring;
  entryWebsiteName : jsstring
}.

Inductive searchResponse :=
| SearchBadRequest (message : jsstring)
| SearchJson (products : list entry) (fallback : bool).

(** The callback of [retailers.map], lines 492-504. *)
Definition fallbackEntry (productName : jsstring) (r : retailer) : entry :=
  {| entryName := VStr productName;
     entryPrice := VNull;
     entryPriceText := VStr (str "Check website");
     entryOriginalPrice := VUndefined;
     entryDescription :=
       [ str "Search results from " ++ retailerName r;
         str "Click the link to view current pricing in " ++ [RUPEE];
         str "Prices may vary by seller" ];
     entryImage := [];
     entryUrl := str "https://www." ++ domain r ++ str "/" ++ searchPath r
                 ++ encodeURIComponent pf productName;
     entryWebsiteName := retailerName r |}.

(** The test of line 436 on [process.env.SERPAPI_KEY]. *)
Definition keyConfigured (serpApiKey : option jsstring) : bool :=
  match serpApiKey with
  | Some k => nonEmpty k && negb (jsstring_eqb k (str "your_serpapi_key_here"))
  | None => false
  end.

(** The handler of [POST /search].  [searchShopping] stands for the [try]
    block of lines 437-478, the SerpAPI request and the conversion of its
    first three results: the products it hands to [res.json], or a throw. *)
Definition search (serpApiKey : option jsstring)
  (searchShopping : jsstring -> result (list entry))
  (productName : option jsstring) : searchResponse :=
  match productName with
  | None => SearchBadRequest (str "Product name is required")
  | Some productName =>
      if nonEmpty productName then
        let fallback :=
          SearchJson (map (fallbackEntry productName) retailers) true in
        if keyConfigured serpApiKey then
          match searchShopping productName with
          | Ok products => SearchJson products false
          | Throw _ => fallback
          end
        else fallback
      else SearchBadRequest (str "Product name is required")
  end.

End Server.

(** ** Well-formed markup *)







(** ** Example inputs *)

(** A reply of the exchange-rate service. *)
Definition liveRates : gmap jsstring number :=
  list_to_map
    [ (str "USD", Fin (119 # 10000)); (str "EUR", Fin (102 # 10000));
      (str "VND", Fin 300); (str "INR", Fin 1) ].

(** A start-up time in milliseconds. *)
Definition t0 : Z := 1700000000000.

(** The URL of the slug scenario and its path. *)
Definition exampleUrl : jsstring :=
  str "https://example.com/dp/amazing-wireless-headphones-B08XYZ123/".

Definition examplePath : jsstring :=
  str "/dp/amazing-wireless-headphones-B08XYZ123/".

(** A page, the extraction of a cheap foreign item, and a world in which
    the hosted server fetches the one and Gemini answers the other. *)
Definition DONG : char := 8363.       (* U+20AB *)

Definition stickerUrl : jsstring := str "https://shop.example.vn/p/sticker-pack".

Definition stickerPage : jsstring :=
  str "<html><body>" ++ concat (replicate 40 (str "<p>Sticker  pack</p> "))
  ++ str "</body></html>".

Definition stickerExtraction : value :=
  VObj [ (str "name", VStr (str "Sticker pack"));
         (str "priceText", VStr (str "100 " ++ [DONG]));
         (str "currency", VStr (str "VND"));
         (str "description", VArr [VStr (str "Forty stickers")]);
         (str "image", VStr []) ].

Definition stickerWorld : world :=
  {| IS_CLOUD := true;
     fetchRenderedHTML := fun _ => Throw (ServiceError (str "no browser"));
     fetchWithAxios := fun _ => Ok (VStr stickerPage);
     extractWithGemini := fun _ _ => Ok stickerExtraction;
     clock := t0;
     rateService := Some liveRates |}.

(** A world whose server answers with a JSON document, and one whose
    server answers with a short refusal. *)
Definition jsonWorld : world :=
  {| IS_CLOUD := true;
     fetchRenderedHTML := fun _ => Throw (ServiceError (str "no browser"));
     fetchWithAxios := fun _ => Ok (VObj [(str "status", VStr (str "ok"))]);
     extractWithGemini := fun _ _ => Throw (ServiceError (str "All Gemini models failed."));
     clock := t0;
     rateService := None |}.

Definition shortWorld : world :=
  {| IS_CLOUD := false;
     fetchRenderedHTML := fun _ => Ok (str "<html>Access denied</html>");
     fetchWithAxios := fun _ => Throw (ServiceError (str "timeout"));
     extractWithGemini := fun _ _ => Throw (ServiceError (str "All Gemini models failed."));
     clock := t0;
     rateService := None |}.



(** ** Further parts of the server and of the page *)

(** The code units a price keeps: digits and dots. *)
Definition priceDigits (s : list char) : list char :=
  filter (fun c => Is_true (isDigit c || char_eqb c 46)) s.

(** The path segments [extractProductNameFromUrl] never takes as a slug. *)
Definition boilerplateSegments : list jsstring :=
  map str ["dp"; "p"; "product"; "item"; "pd"]%string.

(** Two string literals that differ are not equal. *)
Ltac wrong_code :=
  match goal with
  | H : str _ = str _ |- _ => vm_compute in H; inversion H
  end.

Section ServerMore.

Variable pf : platform.

(** *** The SerpAPI branch of POST /search, lines 437-478 *)

(** An item of [shopping_results]: a JSON object. *)
Definition item := list (jsstring * value).

Definition itemField (it : item) (k : string) : value :=
  lookupField (str k) it.

(** A value inside a template literal or handed to [new URL]. *)
Definition asText (v : value) : jsstring :=
  match v with VStr s => s | _ => toString_ pf v end.

(** An entry of [products] on this branch. *)
Record shoppingProduct := {
  spName : value;
  spPrice : value;
  spPriceText : value;
  spOriginalPrice : value;
  spDescription : list value;
  spImage : value;
  spUrl : value;
  spWebsiteName : value
}.

(** The [description] array, lines 466-470, with its [filter(Boolean)]. *)
Definition shoppingDescription (it : item) : list value :=
  List.filter truthy
    [ if truthy (itemField it "source")
      then VStr (str "Sold by: " ++ asText (itemField it "source"))
      else VNull;
      if truthy (itemField it "rating")
      then VStr (str "Rating: " ++ asText (itemField it "rating")
                 ++ str "/5 (" ++ asText (orElse (itemField it "reviews")
                                            (VNum (Fin 0)))
                 ++ str " reviews)")
      else VNull;
      if truthy (itemField it "delivery")
      then VStr (str "Delivery: " ++ asText (itemField it "delivery"))
      else VStr (str "Check website for delivery info") ].

(** The callback of [map], lines 455-475.  [convert] is the outcome of
    [await toINR(numericPrice, currency)] in this callback. *)
Definition shoppingProductOf (convert : value -> value -> result value)
  (productName : jsstring) (it : item) : result shoppingProduct :=
  let* numericPrice := parseNumericPrice pf (itemField it "price") in
  let* currency := detectCurrency pf (itemField it "price") in
  let* priceINR := convert numericPrice (VStr currency) in
  let productUrl :=
    orElse (orElse (itemField it "link") (itemField it "product_link"))
      (VStr (str "#")) in
  Ok {| spName := orElse (itemField it "title") (VStr productName);
        spPrice := priceINR;
        spPriceText :=
          if truthy priceINR
          then VStr (RUPEE :: toLocaleString_enIN pf (toNumber pf priceINR))
          else orElse (itemField it "price") (VStr (str "N/A"));
        spOriginalPrice := itemField it "price";
        spDescription := shoppingDescription it;
        spImage := orElse (itemField it "thumbnail") (VStr []);
        spUrl := productUrl;
        spWebsiteName :=
          orElse (itemField it "source")
            (VStr (getWebsiteName pf (asText productUrl))) |}.

(** [Promise.all] over the callbacks: the products in the order of the
    items, or a rejection when a callback throws.  The callbacks are
    numbered from [i]. *)
Fixpoint shoppingAll (convert : nat -> value -> value -> result value)
  (productName : jsstring) (i : nat) (items : list item)
  : result (list shoppingProduct) :=
  match items with
  | [] => Ok []
  | it :: rest =>
      let* p := shoppingProductOf (convert i) productName it in
      let* ps := shoppingAll convert productName (S i) rest in
      Ok (p :: ps)
  end.

(** The [try] block.  [reply] is the outcome of the request to SerpAPI:
    the [shopping_results] of its data, a list of objects, [None] when the
    data has none, or a throw. *)
Definition shoppingProducts (convert : nat -> value -> value -> result value)
  (productName : jsstring) (reply : result (option (list item)))
  : result (list shoppingProduct) :=
  let* data := reply in
  let results := default [] data in
  shoppingAll convert productName O (take 3 results).

(** The answer of the handler: the products of SerpAPI, or what [search]
    answers when the branch is skipped or throws. *)
Inductive searchAnswer :=
| Shopping (products : list shoppingProduct)
| Static (r : searchResponse).

Definition searchWithShopping (serpApiKey : option jsstring)
  (reply : result (option (list item)))
  (convert : nat -> value -> value -> result value)
  (productName : option jsstring) : searchAnswer :=
  match productName with
  | Some name0 =>
      if nonEmpty name0 && keyConfigured serpApiKey then
        match shoppingProducts convert name0 reply with
        | Ok products => Shopping products
        | Throw e => Static (search pf serpApiKey (fun _ => Throw e) productName)
        end
      else Static (search pf serpApiKey (fun _ => Throw TypeError) productName)
  | None => Static (search pf serpApiKey (fun _ => Throw TypeError) productName)
  end.

(** *** extractWithGemini, lines 253-298 *)

Definition GEMINI_MODELS : list jsstring :=
  map str ["gemini-2.0-flash"; "gemini-2.0-flash-001"; "gemini-2.5-flash"]%string.

(** The three parts of [/```json\s*([\s\S]*?)```/]: what precedes the
    group, the group, and what follows it. *)
Definition reFenceOpen : regex :=
  Seq (lit (str "```json")) (Star true (Chr isSpace)).
Definition reFenceGroup : regex := Star false anyChar.
Definition reFenceClose : regex := lit (str "```").
Definition reFence : regex :=
  Seq reFenceOpen (Seq reFenceGroup reFenceClose).

(** [/\{[\s\S]*\}/] *)
Definition reBraces : regex :=
  Seq (Chr (char_eqb 123)) (Seq (Star true anyChar) (Chr (char_eqb 125))).

(** The text captured by the group in the match of [reFence] that starts
    at the head of [s]: what the group consumed on the path of the matcher
    that succeeds first. *)
Definition fenceGroupAt (prev : option char) (s : jsstring) : option jsstring :=
  rmatch reFenceOpen prev s (fun p1 s1 =>
    rmatch reFenceGroup p1 s1 (fun p2 s2 =>
      rmatch reFenceClose p2 s2 (fun _ _ =>
        Some (take (length s1 - length s2) s1)))).

(** [text.match(re)] for a regular expression without the [g] flag: the
    leftmost match, found by [tryAt]. *)
Fixpoint execFrom {A} (tryAt : option char -> jsstring -> option A)
  (prev : option char) (s : jsstring) : option A :=
  match tryAt prev s with
  | Some a => Some a
  | None =>
      match s with
      | [] => None
      | c :: s' => execFrom tryAt (Some c) s'
      end
  end.

(** The matched text [m[0]] with the group [m[1]]. *)
Definition fenceAt (prev : option char) (s : jsstring)
  : option (jsstring * jsstring) :=
  match matchAt reFence prev s, fenceGroupAt prev s with
  | Some n, Some group => Some (take n s, group)
  | _, _ => None
  end.

Definition bracesAt (prev : option char) (s : jsstring) : option jsstring :=
  match matchAt reBraces prev s with
  | Some n => Some (take n s)
  | None => None
  end.

(** Lines 288-290: [jsonStr], or the throw of [No JSON in response]. *)
Definition jsonText (text : jsstring) : result jsstring :=
  match execFrom fenceAt None text with
  | Some (whole, group) => Ok (if nonEmpty group then group else whole)
  | None =>
      match execFrom bracesAt None text with
      | Some whole => Ok whole
      | None => Throw (ServiceError (str "No JSON in response"))
      end
  end.

(** What the function takes from outside: the reply of a model to the
    prompt, which is built from the URL and the text, [JSON.parse], and the
    [message] of an error. *)
Variable generateContent : jsstring -> jsstring -> jsstring -> result jsstring.
Variable JSON_parse : jsstring -> result value.
Variable errorMessage : error -> jsstring.

(** The body of the [try] for one model. *)
Definition geminiAttempt (cleanedText url modelName : jsstring) : result value :=
  let* text := generateContent modelName cleanedText url in
  let* jsonStr := jsonText text in
  JSON_parse jsonStr.

(** The loop over the models, with [lastError]. *)
Fixpoint geminiLoop (cleanedText url : jsstring) (lastError : option error)
  (models : list jsstring) : result value :=
  match models with
  | [] =>
      Throw (ServiceError
               (str "All Gemini models failed. Last error: "
                ++ match lastError with
                   | Some e => errorMessage e
                   | None => str "undefined"
                   end))
  | modelName :: rest =>
      match geminiAttempt cleanedText url modelName with
      | Ok extracted => Ok extracted
      | Throw e => geminiLoop cleanedText url (Some e) rest
      end
  end.

Definition extractWithGeminiOver (cleanedText url : jsstring) : result value :=
  geminiLoop cleanedText url None GEMINI_MODELS.

(** *** The page: renderComparison, lines 167-189 of app.js *)

(** [a <= b] on numbers that are not [NaN]. *)
Definition leNumber (a b : number) : bool :=
  match a, b with
  | NegInf, _ | _, PosInf => true
  | Fin x, Fin y => Qle_bool x y
  | _, _ => false
  end.

Definition notNaN (n : number) : Prop := isNaNb n = false.

(** The prices the server sends: [null] or a number that is not [NaN]. *)
Definition sentPrice (p : value) : Prop :=
  p = VNull \/ exists n, p = VNum n /\ notNaN n.

Definition minNumber (a b : number) : number := if leNumber a b then a else b.
Definition maxNumber (a b : number) : number := if leNumber a b then b else a.

(** [v === n] for a number [n]. *)
Definition strictEqNumber (v : value) (n : number) : bool :=
  match v, n with
  | VNum (Fin x), Fin y => Qeq_bool x y
  | VNum PosInf, PosInf | VNum NegInf, NegInf => true
  | _, _ => false
  end.

(** The filter of line 176. *)
Definition isPrice (p : value) : bool :=
  match p with
  | VNull | VUndefined => false
  | _ => negb (isNaNb (toNumber pf p))
  end.

(** [Math.min(...prices)] and [Math.max(...prices)] of a non-empty list
    without [NaN]; [None] is the [null] of an empty list. *)
Definition minPrice (prices : list value) : option number :=
  match map (toNumber pf) prices with
  | [] => None
  | n :: ns => Some (foldl minNumber n ns)
  end.

Definition maxPrice (prices : list value) : option number :=
  match map (toNumber pf) prices with
  | [] => None
  | n :: ns => Some (foldl maxNumber n ns)
  end.

(** [isLowest] and [isHighest] of each product, from the [price] of
    each. *)
Definition priceMarks (productPrices : list value) : list (bool * bool) :=
  let prices := List.filter isPrice productPrices in
  map (fun price =>
         (match minPrice prices with
          | Some lo =>
              strictEqNumber price lo
              && (1 <=? length (List.filter (fun p => strictEqNumber p lo) prices))%nat
          | None => false
          end,
          match maxPrice prices, minPrice prices with
          | Some hi, Some lo =>
              strictEqNumber price hi && negb (strictEqNumber (VNum lo) hi)
          | _, _ => false
          end))
      productPrices.

End ServerMore.

(** *** The page: getName, lines 1-13 of welcome.js *)

(** [stored] is [localStorage.getItem('userName')], [answer] what [prompt]
    returns, both [null] or a string ([null] is falsy like the empty
    string); the result is the name with the new content of the storage. *)
Definition getName (stored answer : option jsstring)
  : jsstring * option jsstring :=
  if nonEmpty (default [] stored) then (default [] stored, stored)
  else if nonEmpty (default [] answer)
          && (0 <? length (trim (default [] answer)))%nat
  then (trim (default [] answer), Some (trim (default [] answer)))
  else (str "Guest", stored).

(** ** Further example inputs *)

(** The cache after a successful refresh at [t0]. *)
Definition freshCache : rateCache :=
  {| exchangeRates := liveRates; ratesFetchedAt := t0 |}.

(** A price text with two currency signs. *)
Definition mixedPrice : jsstring :=
  [EURO] ++ str "10 / " ++ [RUPEE] ++ str "900".

(** A shop URL with the [www.] prefix, one whose path has no slug, and a
    text that is no URL. *)
Definition shopUrl : jsstring := str "https://www.flipkart.com/p/red-shoes".
Definition numberUrl : jsstring := str "https://example.com/dp/12345/".
Definition notUrl : jsstring := str "red shoes".

(** The world of the sticker page on a server with a browser that is never
    asked. *)
Definition stickerWorldBrowser : world :=
  {| IS_CLOUD := true;
     fetchRenderedHTML := fun _ => Ok (str "<html>from the browser</html>");
     fetchWithAxios := fetchWithAxios stickerWorld;
     extractWithGemini := extractWithGemini stickerWorld;
     clock := clock stickerWorld;
     rateService := rateService stickerWorld |}.

(** Results of a shopping search: a full one, one priced in dollars, one
    without a price, a fourth one, and one whose price is a number. *)
Definition shoes1 : item :=
  [ (str "title", VStr (str "Red shoes"));
    (str "price", VStr (RUPEE :: str "1,299"));
    (str "link", VStr shopUrl);
    (str "source", VStr (str "Flipkart"));
    (str "delivery", VStr (str "Free delivery")) ].

Definition shoes2 : item :=
  [ (str "title", VStr (str "Red running shoes"));
    (str "price", VStr (str "$20.00"));
    (str "product_link", VStr (str "https://shop.example.com/p/red-running-shoes")) ].

Definition shoes3 : item := [ (str "title", VStr (str "Shoes")) ].

Definition shoes4 : item :=
  [ (str "title", VStr (str "Red sandals"));
    (str "price", VStr (RUPEE :: str "499")) ].


(** The conversion of every callback when the service answers
    [liveRates] to a server that has just started. *)
Definition liveConvert (_ : nat) (amount currency : value) : result value :=
  fst (toINR refPlatform t0 (Some liveRates) amount currency initialCache).

(** Replies of a model: a refusal, an object between two sentences, and a
    fenced block followed by braces. *)
Definition refusalReply : jsstring := str "Sorry, I cannot read this page.".

Definition bracesReply : jsstring :=
  str "Here you are: {name: {first: 1}} and {more} follows".

Definition fencedReply : jsstring :=
  str "Result: " ++ str "```json" ++ [10] ++ str "{name: 1}" ++ str "```"
  ++ str " see {this}".

(** A service that always refuses, services that always give one reply, a
    parser that keeps the text it is handed, and the message of an
    error. *)
Definition quotaService (_ _ _ : jsstring) : result jsstring :=
  Throw (ServiceError (str "quota exceeded")).

Definition replyService (reply : jsstring) (_ _ _ : jsstring) : result jsstring :=
  Ok reply.

Definition keepText (s : jsstring) : result value := Ok (VStr s).

Definition messageOf (e : error) : jsstring :=
  match e with
  | TypeError => str "TypeError"
  | ServiceError m => m
  end.

(** The prices of four products, one of them without a price. *)
Definition fourPrices : list value :=
  [VNum (Fin 1299); VNull; VNum (Fin 999); VNum (Fin 999)].

(** * Properties *)

(** ** Regular expressions *)

Lemma rmatch_star_nil g p prev k :
  rmatch (Star g (Chr p)) prev [] k = k prev [].
Proof. reflexivity. Qed.

Lemma rmatch_star_cons g p prev c s k :
  rmatch (Star g (Chr p)) prev (c :: s) k =
  let again := if p c then rmatch (Star g (Chr p)) (Some c) s k else None in
  if g then match again with Some o => Some o | None => k prev (c :: s) end
  else match k prev (c :: s) with Some o => Some o | None => again end.
Proof.
  cbn [rmatch length starLoop].
  replace (length s <? S (length s))%nat with true
    by (symmetry; apply Nat.ltb_lt; lia).
  reflexivity.
Qed.

Theorem rmatch_sound r :
  forall prev s k out,
    rmatch r prev s k = Some out ->
    exists m s' prev', s = m ++ s' /\ lang r m /\ k prev' s' = Some out.
Proof.
  induction r as [|p|r1 IH1 r2 IH2|r1 IH1 r2 IH2|g r1 IH1| | |];
    intros prev s k out H; cbn [rmatch] in H.
  - exists [], s, prev. simpl. auto.
  - destruct s as [|c s]; [discriminate|].
    destruct (p c) eqn:Hp; [|discriminate].
    exists [c], s, (Some c). repeat split; eauto. simpl. eauto.
  - apply IH1 in H as (m1 & s1 & p1 & -> & L1 & H).
    apply IH2 in H as (m2 & s2 & p2 & -> & L2 & H).
    exists (m1 ++ m2), s2, p2. rewrite <- app_assoc. repeat split; auto.
    simpl. eauto.
  - destruct (rmatch r1 prev s k) eqn:H1.
    + injection H as <-. apply IH1 in H1 as (m & s' & p' & -> & L & H).
      exists m, s', p'. simpl. auto.
    + apply IH2 in H as (m & s' & p' & -> & L & H).
      exists m, s', p'. simpl. auto.
  - revert out H. generalize (length s). intros fuel.
    revert prev s. induction fuel as [|fuel IHf]; intros prev s out H.
    + exists [], s, prev. repeat split; auto. simpl. constructor.
    + cbn [starLoop] in H. cbv zeta in H.
      assert (forall o,
                rmatch r1 prev s (fun p' s' =>
                  if (length s' <? length s)%nat
                  then starLoop (rmatch r1) g k fuel p' s' else None) = Some o ->
                exists m s' prev',
                  s = m ++ s' /\ lang (Star g r1) m /\ k prev' s' = Some o)
        as Hagain.
      { intros o Ho. apply IH1 in Ho as (m1 & s1 & p1 & -> & L1 & Ho).
        destruct (length s1 <? length (m1 ++ s1))%nat; [|discriminate].
        apply IHf in Ho as (m2 & s2 & p2 & -> & L2 & Ho).
        exists (m1 ++ m2), s2, p2. rewrite <- app_assoc. repeat split; auto.
        simpl. constructor; auto. }
      destruct g.
      * match type of H with
        | match ?x with _ => _ end = _ => destruct x eqn:Hx
        end.
        -- injection H as <-. eauto.
        -- exists [], s, prev. repeat split; auto. simpl; constructor.
      * destruct (k prev s) eqn:Hk.
        -- injection H as <-. exists [], s, prev. repeat split; auto.
           simpl; constructor.
        -- eauto.
  - destruct prev; [discriminate|]. exists [], s, None. simpl. auto.
  - destruct s; [|discriminate]. exists [], [], prev. simpl. auto.
  - destruct (xorb _ _); [|discriminate]. exists [], s, prev. simpl. auto.
Qed.

Lemma matchAt_sound r prev s n :
  matchAt r prev s = Some n ->
  exists m rest, s = m ++ rest /\ lang r m /\ n = length m.
Proof.
  unfold matchAt. destruct (rmatch r prev s accept) as [out|] eqn:H; [|discriminate].
  intros [= <-]. apply rmatch_sound in H as (m & s' & p' & -> & L & [= <-]).
  exists m, s'. repeat split; auto. rewrite length_app. lia.
Qed.

Lemma matchAt_le r prev s n : matchAt r prev s = Some n -> (n <= length s)%nat.
Proof.
  unfold matchAt. destruct (rmatch r prev s accept); [|discriminate].
  intros [= <-]. lia.
Qed.

Lemma replaceFrom_skip r f : forall n s prev,
  (n <= length s)%nat ->
  exists prev', replaceFrom r f prev n s = replaceFrom r f prev' O (drop n s).
Proof.
  induction n as [|n IH]; intros s prev Hn.
  - exists prev. now rewrite drop_0.
  - destruct s as [|c s]; [simpl in Hn; lia|].
    simpl in Hn. destruct (IH s (Some c)) as [p' Hp']; [lia|].
    exists p'. simpl. exact Hp'.
Qed.

Theorem replaceFrom_rewrites r f : forall s prev,
  Rewrites r f s (replaceFrom r f prev O s).
Proof.
  intros s. remember (length s) as n eqn:Hn. revert s Hn.
  induction n as [n IH] using lt_wf_ind. intros s Hn prev.
  destruct s as [|c s].
  - simpl. destruct (matchAt r prev []) as [k|] eqn:Hm; [|constructor].
    pose proof (matchAt_le _ _ _ _ Hm) as Hle. simpl in Hle.
    assert (k = O) as -> by lia. econstructor; eauto.
  - simpl. destruct (matchAt r prev (c :: s)) as [[|k]|] eqn:Hm.
    + eapply rw_empty; eauto. eapply IH; eauto. simpl in Hn. lia.
    + pose proof (matchAt_le _ _ _ _ Hm) as Hle. simpl in Hle.
      destruct (replaceFrom_skip r f k s (Some c)) as [p' ->]; [lia|].
      rewrite <- (take_drop k s) at 1.
      change (c :: take k s ++ drop k s) with ((c :: take k s) ++ drop k s).
      rewrite <- (take_drop k s) in Hm at 1.
      eapply (rw_match r f prev (c :: take k s)).
      * discriminate.
      * simpl. rewrite length_take_le by lia. exact Hm.
      * eapply IH; [|reflexivity]. simpl in Hn. rewrite length_drop. lia.
    + eapply rw_copy; eauto. eapply IH; eauto. simpl in Hn. lia.
Qed.

Lemma replaceWith_rewrites r by_ s :
  Rewrites r (fun _ => by_) s (replaceWith r by_ s).
Proof. apply replaceFrom_rewrites. Qed.

Lemma matchAt_lang r prev m rest :
  matchAt r prev (m ++ rest) = Some (length m) -> lang r m.
Proof.
  intros H. apply matchAt_sound in H as (m' & rest' & Heq & L & Hlen).
  apply app_inj_1 in Heq as [-> _]; auto.
Qed.

Lemma lang_nil_matchAt r prev s : matchAt r prev s = Some O -> lang r [].
Proof.
  intros H. apply matchAt_sound in H as (m & rest & _ & L & Hlen).
  destruct m; [assumption | discriminate].
Qed.

Lemma startsIn_seq_chr p r : startsIn p (Seq (Chr p) r).
Proof.
  intros m (m1 & m2 & -> & (c & -> & Hc) & _). exists c, m2. auto.
Qed.

Lemma startsIn_seq p r1 r2 : startsIn p r1 -> startsIn p (Seq r1 r2).
Proof.
  intros H m (m1 & m2 & -> & L1 & _).
  apply H in L1 as (c & m' & -> & Hc). exists c, (m' ++ m2). auto.
Qed.


(** The code units of the result come from the input or from the
    replacement. *)
Lemma replaceWith_Forall (P : char -> Prop) r by_ s :
  Forall P by_ -> Forall P s -> Forall P (replaceWith r by_ s).
Proof.
  intros Hby Hs.
  pose proof (replaceWith_rewrites r by_ s) as Hrw.
  induction Hrw as [|prev Hm|prev c s o Hm Hrw IH|prev c s o Hm Hrw IH
                    |prev m rest o Hne Hm Hrw IH].
  - constructor.
  - assumption.
  - inversion Hs; subst. constructor; auto.
  - inversion Hs; subst. apply Forall_app. split; auto.
  - apply Forall_app in Hs as [_ Hrest]. apply Forall_app. split; auto.
Qed.

(** ** White space *)

Lemma trimStart_suffix s : exists pre, s = pre ++ trimStart s.
Proof.
  induction s as [|c s [pre IH]]; [now exists []|].
  simpl. destruct (isSpace c).
  - exists (c :: pre). simpl. now f_equal.
  - now exists [].
Qed.

Lemma headSpace_trimStart s : headSpace (trimStart s) = false.
Proof.
  induction s as [|c s IH]; [reflexivity|].
  simpl. destruct (isSpace c) eqn:Hc; [assumption|]. simpl. exact Hc.
Qed.


Lemma trimEnd_prefix s : exists post, s = trimEnd s ++ post.
Proof.
  unfold trimEnd. destruct (trimStart_suffix (rev s)) as [pre Hpre].
  exists (rev pre). rewrite <- rev_app_distr, <- Hpre. now rewrite rev_involutive.
Qed.

Lemma lastSpace_trimEnd s : lastSpace (trimEnd s) = false.
Proof.
  unfold lastSpace, trimEnd. rewrite rev_involutive. apply headSpace_trimStart.
Qed.


Lemma headSpace_prefix a b : headSpace (a ++ b) = false -> headSpace a = false.
Proof. destruct a; auto. Qed.

Lemma headSpace_trim s : headSpace (trim s) = false.
Proof.
  unfold trim. destruct (trimEnd_prefix (trimStart s)) as [post Hpost].
  apply (headSpace_prefix _ post). rewrite <- Hpost. apply headSpace_trimStart.
Qed.

Lemma lastSpace_trim s : lastSpace (trim s) = false.
Proof. apply lastSpace_trimEnd. Qed.


Lemma noAdjacentSpaces_app a b :
  noAdjacentSpaces (a ++ b) = true ->
  noAdjacentSpaces a = true /\ noAdjacentSpaces b = true.
Proof.
  induction a as [|c a IH]; simpl; [auto|].
  intros H. apply andb_true_iff in H as [H1 H2].
  destruct (IH H2) as [Ha Hb]. split; [|assumption].
  rewrite Ha, andb_true_r.
  destruct a as [|c2 a]; [reflexivity|]. exact H1.
Qed.

Lemma noAdjacentSpaces_trim s :
  noAdjacentSpaces s = true -> noAdjacentSpaces (trim s) = true.
Proof.
  intros H. unfold trim.
  destruct (trimStart_suffix s) as [pre Hpre].
  destruct (trimEnd_prefix (trimStart s)) as [post Hpost].
  rewrite Hpre in H. apply noAdjacentSpaces_app in H as [_ H].
  rewrite Hpost in H. now apply noAdjacentSpaces_app in H as [H _].
Qed.

Lemma noAdjacentSpaces_take n s :
  noAdjacentSpaces s = true -> noAdjacentSpaces (take n s) = true.
Proof.
  intros H. rewrite <- (take_drop n s) in H.
  now apply noAdjacentSpaces_app in H as [H _].
Qed.

Lemma headSpace_take n s : headSpace s = false -> headSpace (take n s) = false.
Proof.
  intros H. apply (headSpace_prefix _ (drop n s)). now rewrite take_drop.
Qed.

(** The greedy [\s*] takes the whole run. *)
Lemma rmatch_spaces prev s :
  rmatch (Star true (Chr isSpace)) prev s accept = Some (trimStart s).
Proof.
  revert prev. induction s as [|c s IH]; intros prev; [reflexivity|].
  rewrite rmatch_star_cons. cbv zeta. simpl trimStart.
  destruct (isSpace c); [|reflexivity]. now rewrite IH.
Qed.

Lemma matchAt_reSpaces2 prev s :
  matchAt reSpaces2 prev s =
  match s with
  | c1 :: c2 :: s' =>
      if isSpace c1 && isSpace c2
      then Some (length s - length (trimStart s'))%nat else None
  | _ => None
  end.
Proof.
  unfold matchAt, reSpaces2, atLeast. cbn [times rmatch].
  destruct s as [|c1 [|c2 s']]; try reflexivity.
  - destruct (isSpace c1); reflexivity.
  - destruct (isSpace c1); [|reflexivity].
    destruct (isSpace c2); [|reflexivity].
    change (starLoop _ _ _ _ _ _)
      with (rmatch (Star true (Chr isSpace)) (Some c2) s' accept).
    now rewrite rmatch_spaces.
Qed.


(** Its result has no run left. *)
Lemma collapse_noAdjacentSpaces s :
  noAdjacentSpaces (replaceWith reSpaces2 (str " ") s) = true.
Proof.
  pose proof (replaceWith_rewrites reSpaces2 (str " ") s) as Hrw.
  enough (noAdjacentSpaces (replaceWith reSpaces2 (str " ") s) = true
          /\ (headSpace (replaceWith reSpaces2 (str " ") s) = true ->
              headSpace s = true)) by tauto.
  induction Hrw as [|prev Hm|prev c s o Hm Hrw [IH1 IH2]|prev c s o Hm Hrw IH
                    |prev m rest o Hne Hm Hrw [IH1 IH2]].
  - split; [reflexivity | discriminate].
  - rewrite matchAt_reSpaces2 in Hm. discriminate.
  - split; [|auto]. simpl. rewrite IH1, andb_true_r.
    destruct o as [|c2 o]; [reflexivity|].
    apply negb_true_iff. apply not_true_iff_false. intros Hboth.
    apply andb_true_iff in Hboth as [Hc Hc2].
    specialize (IH2 Hc2). rewrite matchAt_reSpaces2 in Hm.
    destruct s as [|c2' s]; [discriminate|]. simpl in IH2.
    rewrite Hc, IH2 in Hm. discriminate.
  - rewrite matchAt_reSpaces2 in Hm.
    destruct s as [|c2 s]; [discriminate|].
    destruct (isSpace c && isSpace c2); [|discriminate].
    destruct (trimStart_suffix s) as [pre Hpre].
    injection Hm as Hm. rewrite Hpre in Hm at 1. simpl in Hm.
    rewrite length_app in Hm. lia.
  - rewrite matchAt_reSpaces2 in Hm.
    destruct (m ++ rest) as [|c1 [|c2 s']] eqn:Heq; try discriminate.
    destruct (isSpace c1 && isSpace c2) eqn:Hboth; [|discriminate].
    apply andb_true_iff in Hboth as [Hc1 Hc2].
    destruct (trimStart_suffix s') as [pre Hpre].
    injection Hm as Hm.
    assert (m = c1 :: c2 :: pre /\ rest = trimStart s') as [-> ->].
    { apply app_inj_1.
      - simpl in Hm |- *. rewrite Hpre in Hm at 1.
        rewrite length_app in Hm. lia.
      - rewrite Heq. rewrite Hpre at 1. reflexivity. }
    split.
    + change (str " " ++ o) with (32 :: o). simpl. rewrite IH1, andb_true_r.
      destruct o as [|c o]; [reflexivity|].
      destruct (isSpace c) eqn:Hc; [|reflexivity].
      specialize (IH2 Hc). rewrite headSpace_trimStart in IH2. discriminate.
    + intros _. simpl. exact Hc1.
Qed.

(** ** Cleaner *)


Lemma startsIn_lit c w : startsIn (char_eqb c) (lit (c :: w)).
Proof. apply startsIn_seq_chr. Qed.

























Lemma Forall_trim (P : char -> Prop) s : Forall P s -> Forall P (trim s).
Proof.
  intros H. unfold trim.
  destruct (trimStart_suffix s) as [pre Hpre].
  destruct (trimEnd_prefix (trimStart s)) as [post Hpost].
  rewrite Hpre in H. apply Forall_app in H as [_ H].
  rewrite Hpost in H. now apply Forall_app in H as [H _].
Qed.








(** ** Currency *)

Section CurrencyProperties.

Variable pf : platform.

Lemma Math_round_integer (n : number) :
  isFiniteb n = true -> isInteger (Math_round n) = true.
Proof.
  destruct n as [| | |q]; try discriminate. intros _.
  unfold Math_round, isInteger.
  rewrite Qfloor_Z. apply Qeq_bool_iff. reflexivity.
Qed.

(** A call with a currency code always returns a rate, and refreshes the
    cache exactly when the test of line 30 says so. *)
Lemma getINRRate_string now service (c : jsstring) st :
  exists rate,
    getINRRate pf now service (VStr c) st
    = (Ok rate,
       if needsRefresh now c st then refresh now service st else st).
Proof.
  unfold getINRRate.
  destruct (jsstring_eqb (toUpperCase pf c) (str "INR")); eauto.
Qed.

(** C1, as amended: [toINR] answers [null] for a missing amount
    ([undefined], [null]) and for the numbers zero and [NaN]; for every
    other number, the infinite ones included, and every currency code it
    answers [Math.round(amount * rate)] with the rate [getINRRate] gives for
    the code, and that answer is an integer whenever the product is finite. *)
Theorem toINR_null_or_rounded now service (code : jsstring) st :
  toINR pf now service VUndefined (VStr code) st = (Ok VNull, st)
  /\ toINR pf now service VNull (VStr code) st = (Ok VNull, st)
  /\ toINR pf now service (VNum NaN) (VStr code) st = (Ok VNull, st)
  /\ (forall q, isZeroQ q = true ->
        toINR pf now service (VNum (Fin q)) (VStr code) st = (Ok VNull, st))
  /\ (forall n, truthy (VNum n) = true ->
        exists rate st',
          getINRRate pf now service (VStr code) st = (Ok rate, st')
          /\ toINR pf now service (VNum n) (VStr code) st
             = (Ok (VNum (Math_round (fmul pf n rate))), st')
          /\ (isFiniteb (fmul pf n rate) = true ->
              isInteger (Math_round (fmul pf n rate)) = true)).
Proof.
  repeat split; try reflexivity.
  - intros q Hq. unfold toINR. simpl. rewrite Hq. reflexivity.
  - intros n Hn.
    destruct (getINRRate_string now service code st) as [rate Hrate].
    exists rate. eexists. split; [exact Hrate|]. split.
    + unfold toINR. rewrite Hn. simpl toNumber.
      assert (isNaNb n = false) as ->
        by (destruct n; [discriminate | reflexivity ..]).
      simpl. rewrite Hrate. reflexivity.
    + apply Math_round_integer.
Qed.

(** C6, as amended: when a call for a currency code attempts the refresh
    and the request fails, [getINRRate] leaves exactly the fallback table in
    the cache (nothing of the previous table survives) and leaves the
    timestamp as it was.  If the snapshot was older than 30 minutes at that
    call, every later call, for any code and whatever the service then
    answers, attempts the refresh again. *)
Theorem getINRRate_refresh_failure now (code : jsstring) st :
  needsRefresh now code st = true ->
  let st' := snd (getINRRate pf now None (VStr code) st) in
  exchangeRates st' = fallbackRates
  /\ ratesFetchedAt st' = ratesFetchedAt st
  /\ ((30 * 60 * 1000 < now - ratesFetchedAt st)%Z ->
      forall later service' (code' : jsstring), (now <= later)%Z ->
        snd (getINRRate pf later service' (VStr code') st')
        = refresh later service' st').
Proof.
  intros Hneeds st'.
  destruct (getINRRate_string now None code st) as [rate Hrate].
  subst st'. rewrite Hrate, Hneeds. simpl.
  repeat split.
  intros Hstale later service' code' Hlater.
  destruct (getINRRate_string later service' code'
              {| exchangeRates := fallbackRates;
                 ratesFetchedAt := ratesFetchedAt st |}) as [rate' Hrate'].
  rewrite Hrate'. simpl.
  assert (needsRefresh later code'
            {| exchangeRates := fallbackRates;
               ratesFetchedAt := ratesFetchedAt st |} = true) as ->.
  { unfold needsRefresh. simpl. apply orb_true_iff. left.
    apply Z.ltb_lt. lia. }
  reflexivity.
Qed.


End CurrencyProperties.

(** *** Closed instances on the reference platform *)



Lemma toINR_null_or_rounded_witness :
  truthy (VNum (Fin (51 # 2))) = true
  /\ exists rate st',
       getINRRate refPlatform t0 None (VStr (str "USD")) initialCache
       = (Ok rate, st')
       /\ toINR refPlatform t0 None (VNum (Fin (51 # 2))) (VStr (str "USD"))
            initialCache
          = (Ok (VNum (Math_round (fmul refPlatform (Fin (51 # 2)) rate))), st')
       /\ (isFiniteb (fmul refPlatform (Fin (51 # 2)) rate) = true ->
           isInteger (Math_round (fmul refPlatform (Fin (51 # 2)) rate)) = true).
Proof.
  split; [reflexivity|].
  apply (proj2 (proj2 (proj2 (proj2
           (toINR_null_or_rounded refPlatform t0 None (str "USD") initialCache))))).
  reflexivity.
Defined.

(** C1 as stated fails: zero is a finite number, yet [toINR] answers [null]
    for it and not the rounded product; and for the amount [Infinity], which
    is not a finite number, it answers [Infinity], which is neither [null]
    nor an integer. *)
Lemma toINR_zero_and_infinity_counterexample :
  let zero := toINR refPlatform t0 None (VNum (Fin 0)) (VStr (str "USD")) initialCache in
  let inf := toINR refPlatform t0 None (VNum PosInf) (VStr (str "USD")) initialCache in
  isFiniteb (Fin 0) = true
  /\ fst zero = Ok VNull
  /\ (forall rate, fst zero <> Ok (VNum (Math_round (fmul refPlatform (Fin 0) rate))))
  /\ isFiniteb PosInf = false
  /\ fst inf = Ok (VNum PosInf)
  /\ fst inf <> Ok VNull
  /\ isInteger PosInf = false.
Proof.
  vm_compute. repeat split; try discriminate.
Qed.

Lemma getINRRate_refresh_failure_witness :
  needsRefresh t0 (str "USD") initialCache = true
  /\ let st' := snd (getINRRate refPlatform t0 None (VStr (str "USD")) initialCache) in
     exchangeRates st' = fallbackRates
     /\ ratesFetchedAt st' = ratesFetchedAt initialCache
     /\ ((30 * 60 * 1000 < t0 - ratesFetchedAt initialCache)%Z ->
         forall later service' (code' : jsstring), (t0 <= later)%Z ->
           snd (getINRRate refPlatform later service' (VStr code') st')
           = refresh later service' st').
Proof.
  split; [reflexivity|].
  apply (getINRRate_refresh_failure refPlatform t0 (str "USD") initialCache).
  reflexivity.
Defined.

(** C6 as stated fails: a refresh that is attempted because the code is
    missing from a fresh snapshot, and fails, leaves the fresh timestamp
    over the fallback table, and the next call does not retry. *)
Lemma getINRRate_no_retry_counterexample :
  let st1 := snd (getINRRate refPlatform t0 (Some liveRates)
                    (VStr (str "USD")) initialCache) in
  let st2 := snd (getINRRate refPlatform (t0 + 60000) None
                    (VStr (str "XYZ")) st1) in
  needsRefresh (t0 + 60000) (str "XYZ") st1 = true
  /\ exchangeRates st2 = fallbackRates
  /\ ratesFetchedAt st2 = t0
  /\ needsRefresh (t0 + 120000) (str "USD") st2 = false
  /\ snd (getINRRate refPlatform (t0 + 120000) (Some liveRates)
            (VStr (str "USD")) st2) = st2
  /\ st2 <> refresh (t0 + 120000) (Some liveRates) st2.
Proof.
  vm_compute. repeat split. discriminate.
Qed.


(** ** The URL slug *)



(** C3, as amended: on the example URL, whose path the URL parser gives as
    [/dp/amazing-wireless-headphones-B08XYZ123/], the slug-derived name
    keeps the item code, [Amazing Wireless Headphones B08XYZ123]: the code
    is neither a run of eight hexadecimal digits nor a run of four decimal
    digits. *)
Theorem extractProductNameFromUrl_example (pf : platform) (u : URL) :
  newURL pf exampleUrl = Some u ->
  pathname u = examplePath ->
  extractProductNameFromUrl pf exampleUrl
  = Some (str "Amazing Wireless Headphones B08XYZ123").
Proof.
  intros Hurl Hpath. unfold extractProductNameFromUrl.
  rewrite Hurl, Hpath. vm_compute. reflexivity.
Qed.

Lemma extractProductNameFromUrl_example_witness :
  newURL refPlatform exampleUrl
  = Some {| hostname := str "example.com"; pathname := examplePath |}
  /\ extractProductNameFromUrl refPlatform exampleUrl
     = Some (str "Amazing Wireless Headphones B08XYZ123").
Proof.
  split; [reflexivity|].
  apply (extractProductNameFromUrl_example refPlatform
           {| hostname := str "example.com"; pathname := examplePath |});
    reflexivity.
Defined.

(** C3 as stated fails: the name is not [Amazing Wireless Headphones]. *)
Lemma extractProductNameFromUrl_example_counterexample :
  extractProductNameFromUrl refPlatform exampleUrl
  <> Some (str "Amazing Wireless Headphones").
Proof.
  vm_compute. discriminate.
Qed.

(** ** POST /search *)



(** ** POST /scrape *)

Section ScrapeProperties.

Variable pf : platform.

Lemma blockedResponse_shape (url : jsstring) :
  exists body,
    blockedResponse pf url = Json body
    /\ blocked body = true /\ price body = VNull
    /\ description body = VArr [].
Proof. eexists. split; [reflexivity|]. repeat split. Qed.

Lemma scrapeCatch_shape (url : jsstring) e body :
  scrapeCatch pf url e = Json body ->
  blocked body = true /\ price body = VNull /\ description body = VArr [].
Proof.
  unfold scrapeCatch.
  destruct (extractProductNameFromUrl pf url) as [slug|]; [|discriminate].
  destruct (nonEmpty slug); [|discriminate].
  intros [= <-]. repeat split.
Qed.

(** What the [try] body answers when it does not throw: the blocked
    response, or the product built from the extraction. *)
Lemma scrapeBody_ok w (url : jsstring) st r st' :
  scrapeBody pf w url st = (Ok r, st') ->
  r = blockedResponse pf url
  \/ exists html extracted body,
       fst (fetchHTML w url) = VStr html
       /\ extractWithGemini w (cleanHTML html) url = Ok extracted
       /\ r = Json body
       /\ blocked body = false
       /\ originalPrice body = field extracted "priceText"
       /\ priceText body
          = (if truthy (price body)
             then VStr (RUPEE :: toLocaleString_enIN pf (toNumber pf (price body)))
             else field extracted "priceText").
Proof.
  unfold scrapeBody.
  destruct (fetchHTML w url) as [html failed] eqn:Hfetch.
  destruct (fetchBlocked pf html failed); [intros [= <- <-]; now left|].
  destruct html as [| | | |html| |]; try discriminate.
  destruct (length (cleanHTML html) <? 200)%nat; [intros [= <- <-]; now left|].
  destruct (extractWithGemini w (cleanHTML html) url) as [ex|e] eqn:Hex;
    simpl; [|intros [= <- <-]; now left].
  destruct (getProp ex (str "name")) as [nm|e] eqn:Hnm;
    simpl; [|intros [= <- <-]; now left].
  destruct (isUnknown pf (field ex "name")) as [[|]|e]; try discriminate;
    [intros [= <- <-]; now left|].
  destruct (parseNumericPrice pf (field ex "priceText")) as [num|e];
    simpl; [|discriminate].
  destruct (truthy (field ex "currency")); simpl.
  - destruct (toINR pf (clock w) (rateService w) num (field ex "currency") st)
      as [[priceINR|e] st1]; [|discriminate].
    destruct (slice3 _) as [d|e]; simpl; [|discriminate].
    intros [= <- <-]. right. exists html, ex. eexists.
    repeat split; try reflexivity; assumption.
  - destruct (detectCurrency pf (field ex "priceText")) as [c|e];
      simpl; [|discriminate].
    destruct (toINR pf (clock w) (rateService w) num (VStr c) st)
      as [[priceINR|e] st1]; [|discriminate].
    destruct (slice3 _) as [d|e]; simpl; [|discriminate].
    intros [= <- <-]. right. exists html, ex. eexists.
    repeat split; try reflexivity; assumption.
Qed.

(** C2: every response of [POST /scrape] with [blocked: true] has
    [price: null] and [description: []], whichever path built it: the
    blocked response of the [try] body or the one of the [catch]. *)
Theorem scrape_blocked_invariant w url st body :
  fst (scrape pf w url st) = Json body ->
  blocked body = true ->
  price body = VNull /\ description body = VArr [].
Proof.
  unfold scrape.
  destruct url as [url|]; [|discriminate].
  destruct (nonEmpty url); [|discriminate].
  destruct (scrapeBody pf w url st) as [[r|e] st'] eqn:Hbody; simpl.
  - intros -> Hblocked.
    apply scrapeBody_ok in Hbody as [Hr | (html & ex & b & _ & _ & Hr & Hb & _)].
    + destruct (blockedResponse_shape url) as (b & Hb & _ & Hp & Hd).
      rewrite Hb in Hr. injection Hr as ->. now split.
    + injection Hr as ->. congruence.
  - intros Hcatch _. apply scrapeCatch_shape in Hcatch. tauto.
Qed.

Lemma lengthBelow_string (s : jsstring) (n : nat) :
  (length s < n)%nat -> lengthBelow pf (VStr s) n = true.
Proof.
  intros Hlt. unfold lengthBelow. simpl. unfold ltNumber, ofNat.
  apply negb_true_iff. apply not_true_iff_false.
  rewrite Qle_bool_iff, <- Zle_Qle. lia.
Qed.

(** C7: when both fetchers failed, or the fetched HTML is missing, or it is
    a string of fewer than 500 characters, the handler answers the blocked
    response: [blocked: true] and [price: null]. *)
Theorem scrape_fetch_blocked w (url : jsstring) st html fetchFailed :
  nonEmpty url = true ->
  fetchHTML w url = (html, fetchFailed) ->
  fetchFailed = true \/ truthy html = false
    \/ (exists s, html = VStr s /\ (length s < 500)%nat) ->
  exists body,
    scrape pf w (Some url) st = (Json body, st)
    /\ blocked body = true /\ price body = VNull.
Proof.
  intros Hurl Hfetch Hcase.
  assert (fetchBlocked pf html fetchFailed = true) as Hblocked.
  { unfold fetchBlocked.
    destruct Hcase as [-> | [-> | (s & -> & Hlen)]].
    - reflexivity.
    - now rewrite orb_true_r.
    - rewrite (lengthBelow_string _ _ Hlen). now rewrite orb_true_r. }
  unfold scrape, scrapeBody. rewrite Hurl, Hfetch, Hblocked.
  destruct (blockedResponse_shape url) as (b & -> & Hb & Hp & _).
  exists b. repeat split; assumption.
Qed.


End ScrapeProperties.



(** C2 on the path through the [catch]: the reply is a JSON document, not
    a page, and [cleanHTML] throws on it. *)
Lemma scrape_blocked_invariant_witness :
  exists body,
    fst (scrape refPlatform jsonWorld (Some exampleUrl) initialCache) = Json body
    /\ blocked body = true
    /\ blockerMessage body = Some (blockedMessageCatch (str "Example"))
    /\ price body = VNull /\ description body = VArr [].
Proof.
  eexists. split; [vm_compute; reflexivity|].
  split; [reflexivity|]. split; [reflexivity|].
  match goal with
  | |- price ?b = _ /\ _ =>
      apply (scrape_blocked_invariant refPlatform jsonWorld (Some exampleUrl)
               initialCache b); [vm_compute; reflexivity | reflexivity]
  end.
Defined.

Lemma scrape_fetch_blocked_witness :
  nonEmpty exampleUrl = true
  /\ fetchHTML shortWorld exampleUrl = (VStr (str "<html>Access denied</html>"), false)
  /\ exists body,
       scrape refPlatform shortWorld (Some exampleUrl) initialCache
       = (Json body, initialCache)
       /\ blocked body = true /\ price body = VNull.
Proof.
  split; [reflexivity|]. split; [reflexivity|].
  apply (scrape_fetch_blocked refPlatform shortWorld exampleUrl initialCache
           (VStr (str "<html>Access denied</html>")) false);
    [reflexivity | reflexivity |].
  right. right. eexists. split; [reflexivity|]. vm_compute. lia.
Defined.

(** * Further properties *)

(** ** The rate cache *)

Lemma jsstring_eqb_eq (a b : jsstring) : jsstring_eqb a b = true -> a = b.
Proof.
  revert b. induction a as [|x a IH]; intros [|y b]; simpl;
    try discriminate; auto.
  intros H. apply andb_true_iff in H as [Hxy Hab].
  apply N.eqb_eq in Hxy as ->. f_equal. auto.
Qed.

Lemma jsstring_eqb_refl (a : jsstring) : jsstring_eqb a a = true.
Proof.
  induction a as [|x a IH]; simpl; [reflexivity|].
  rewrite IH. unfold char_eqb. now rewrite N.eqb_refl.
Qed.

Section CacheProperties.

Variable pf : platform.

(** The rate a call reads from a table, once the refresh is settled. *)
Lemma getINRRate_unfold now service (code : jsstring) st :
  getINRRate pf now service (VStr code) st
  = let st' := if needsRefresh now code st then refresh now service st else st in
    (Ok (if jsstring_eqb (toUpperCase pf code) (str "INR") then Fin 1
         else match exchangeRates st' !! toUpperCase pf code with
              | Some rate =>
                  if truthy (VNum rate) then fdiv pf (Fin 1) rate else Fin 83
              | None => if inherited (toUpperCase pf code) then NaN else Fin 83
              end), st').
Proof.
  unfold getINRRate. cbv zeta.
  destruct (jsstring_eqb (toUpperCase pf code) (str "INR")); reflexivity.
Qed.

Lemma needsRefresh_fresh now (code : jsstring) st rate :
  (now - ratesFetchedAt st <= 30 * 60 * 1000)%Z ->
  exchangeRates st !! code = Some rate ->
  truthy (VNum rate) = true ->
  needsRefresh now code st = false.
Proof.
  intros Hage Hcode Hrate. unfold needsRefresh, rateTruthy.
  rewrite Hcode, Hrate. simpl. rewrite orb_false_r. apply Z.ltb_ge. lia.
Qed.

(** X1: the cache works.  A call that refreshes successfully stores the
    table of the reply with the time of the call; if that table has a truthy
    rate under the code as written, a call for the same code within the next
    30 minutes returns the same rate, does not consult the service and
    leaves the cache alone. *)
Theorem getINRRate_refresh_then_hit now later rates service'
  (code : jsstring) rate st :
  needsRefresh now code st = true ->
  rates !! code = Some rate ->
  truthy (VNum rate) = true ->
  (now <= later <= now + 30 * 60 * 1000)%Z ->
  let first := getINRRate pf now (Some rates) (VStr code) st in
  snd first = {| exchangeRates := rates; ratesFetchedAt := now |}
  /\ getINRRate pf later service' (VStr code) (snd first) = first.
Proof.
  intros Hneeds Hcode Hrate Hlater first. subst first.
  rewrite (getINRRate_unfold now). rewrite Hneeds. cbv zeta. simpl refresh.
  split; [reflexivity|].
  rewrite (getINRRate_unfold later). cbn [snd].
  rewrite (needsRefresh_fresh later code _ rate); simpl; auto; lia.
Qed.

(** X2: the refresh test reads the table under the code as written, the
    rate under the code in upper case.  A code that is not a key of the
    table as written (one in lower case, say) is refreshed on every call,
    whatever the age of the snapshot, even when its rate is in the table. *)
Theorem getINRRate_unlisted_spelling now service (code : jsstring) st :
  exchangeRates st !! code = None ->
  inherited code = false ->
  snd (getINRRate pf now service (VStr code) st) = refresh now service st
  /\ (forall rates rate,
        service = Some rates ->
        toUpperCase pf code <> str "INR" ->
        rates !! toUpperCase pf code = Some rate ->
        truthy (VNum rate) = true ->
        getINRRate pf now service (VStr code) st
        = (Ok (fdiv pf (Fin 1) rate),
           {| exchangeRates := rates; ratesFetchedAt := now |})).
Proof.
  intros Hcode Hinh.
  assert (needsRefresh now code st = true) as Hneeds.
  { unfold needsRefresh, rateTruthy. rewrite Hcode, Hinh. apply orb_true_r. }
  rewrite getINRRate_unfold, Hneeds. cbv zeta. split; [reflexivity|].
  intros rates rate -> Hupper Hrate Htruthy. simpl refresh. cbn [exchangeRates].
  rewrite Hrate, Htruthy.
  destruct (jsstring_eqb (toUpperCase pf code) (str "INR")) eqn:Heq;
    [|reflexivity].
  exfalso. apply Hupper. now apply jsstring_eqb_eq.
Qed.

(** X3: a code the table does not know costs 83 rupees a unit.  When the
    table the call ends with has no entry under the upper-cased code, or a
    zero one, the rate is the default 83, not an error. *)
Theorem getINRRate_default_rate now service (code : jsstring) st :
  toUpperCase pf code <> str "INR" ->
  inherited (toUpperCase pf code) = false ->
  let '(rate, st') := getINRRate pf now service (VStr code) st in
  (exchangeRates st' !! toUpperCase pf code = None
   \/ exists q, exchangeRates st' !! toUpperCase pf code = Some (Fin q)
                /\ isZeroQ q = true) ->
  rate = Ok (Fin 83).
Proof.
  intros Hupper Hinh. rewrite getINRRate_unfold. cbv zeta.
  destruct (jsstring_eqb (toUpperCase pf code) (str "INR")) eqn:Heq.
  - exfalso. apply Hupper. now apply jsstring_eqb_eq.
  - intros [Hnone | (q & Hq & Hzero)].
    + rewrite Hnone, Hinh. reflexivity.
    + rewrite Hq. simpl. rewrite Hzero. reflexivity.
Qed.

(** X4: rupees are never converted through the table.  For a code whose
    upper-case form is [INR] the rate is 1 whatever the table and the
    service say, so [toINR] answers the rounded product with 1; the call
    still refreshes a stale cache. *)
Theorem toINR_rupees now service (code : jsstring) n st :
  toUpperCase pf code = str "INR" ->
  truthy (VNum n) = true ->
  toINR pf now service (VNum n) (VStr code) st
  = (Ok (VNum (Math_round (fmul pf n (Fin 1)))),
     if needsRefresh now code st then refresh now service st else st).
Proof.
  intros Hupper Hn. unfold toINR. rewrite Hn. simpl toNumber.
  assert (isNaNb n = false) as ->
    by (destruct n; [discriminate | reflexivity ..]).
  simpl. rewrite getINRRate_unfold. cbv zeta. rewrite Hupper. reflexivity.
Qed.

End CacheProperties.

(** ** Price strings *)

(** A global replace of one character class rewrites code unit by code
    unit. *)
Lemma replaceFrom_class p by_ s : forall prev,
  replaceFrom (Chr p) (fun _ => by_) prev O s
  = flat_map (fun c => if p c then by_ else [c]) s.
Proof.
  induction s as [|c s IH]; intros prev; [reflexivity|].
  cbn [replaceFrom flat_map]. unfold matchAt. cbn [rmatch].
  destruct (p c); cbn [accept length].
  - replace (S (length s) - length s)%nat with 1%nat by lia.
    now rewrite IH.
  - simpl. now rewrite IH.
Qed.

Lemma filter_cons_bool (b : char -> bool) (c : char) (s : list char) :
  filter (fun x => Is_true (b x)) (c :: s)
  = if b c then c :: filter (fun x => Is_true (b x)) s
    else filter (fun x => Is_true (b x)) s.
Proof. rewrite filter_cons. destruct (b c); reflexivity. Qed.

Lemma replaceWith_class_delete p (s : list char) :
  replaceWith (Chr p) [] s = filter (fun c => Is_true (negb (p c))) s.
Proof.
  unfold replaceWith, replaceAll. rewrite replaceFrom_class.
  induction s as [|c s IH]; [reflexivity|].
  cbn [flat_map]. rewrite IH, filter_cons_bool.
  destruct (p c); reflexivity.
Qed.

Lemma keep_price_char c :
  negb (char_eqb 44 c)
  && negb (negb (isDigit c || char_eqb c 46 || char_eqb c 44))
  = isDigit c || char_eqb c 46.
Proof.
  unfold char_eqb. destruct (N.eqb_spec 44 c) as [<-|H]; [reflexivity|].
  destruct (N.eqb_spec c 44); [congruence|].
  now rewrite negb_involutive, orb_false_r.
Qed.

(** The two replacements of [parseNumericPrice] keep the digits and dots. *)
Lemma priceDigits_replace (s : list char) :
  replaceWith reComma [] (replaceWith reNotPriceChar [] s) = priceDigits s.
Proof.
  unfold reComma, reNotPriceChar, priceDigits.
  rewrite !replaceWith_class_delete.
  induction s as [|c s IH]; [reflexivity|].
  rewrite (filter_cons_bool (fun c => isDigit c || char_eqb c 46)).
  rewrite <- keep_price_char.
  rewrite (filter_cons_bool
             (fun c => negb (negb (isDigit c || char_eqb c 46 || char_eqb c 44)))).
  destruct (negb (negb (isDigit c || char_eqb c 46 || char_eqb c 44))).
  - rewrite (filter_cons_bool (fun c => negb (char_eqb 44 c))).
    destruct (negb (char_eqb 44 c)); cbn [andb]; now rewrite IH.
  - rewrite andb_false_r. exact IH.
Qed.

Section PriceStringProperties.

Variable pf : platform.

(** X5: [parseNumericPrice] reads only the digits and dots of a string.
    Currency signs, letters, spaces, minus signs and thousands separators
    play no part: the result is [parseFloat] of the digits and dots in
    their order, or [null] when that is [NaN]; it never throws on a
    string. *)
Theorem parseNumericPrice_digits (s : jsstring) :
  parseNumericPrice pf (VStr s)
  = Ok (if nonEmpty s
        then if isNaNb (parseFloat pf (priceDigits s)) then VNull
             else VNum (parseFloat pf (priceDigits s))
        else VNull).
Proof.
  unfold parseNumericPrice. simpl truthy.
  destruct (nonEmpty s); [|reflexivity]. simpl negb. cbv iota.
  now rewrite priceDigits_replace.
Qed.

(** X6: on a string [detectCurrency] never throws and answers one of five
    codes; the rupee sign and the letters [inr] win over every other
    marker, then the euro, the pound and the yen sign in this order. *)
Theorem detectCurrency_codes (s : jsstring) :
  exists code,
    detectCurrency pf (VStr s) = Ok code
    /\ In code (map str ["INR"; "EUR"; "GBP"; "JPY"; "USD"]%string)
    /\ (includes s [RUPEE] = true -> code = str "INR")
    /\ (nonEmpty s = true ->
        includes (toLowerCase pf s) (str "inr") = true -> code = str "INR")
    /\ (code = str "EUR" -> includes s [EURO] = true)
    /\ (code = str "GBP" ->
        includes s [POUND] = true /\ includes s [EURO] = false)
    /\ (code = str "JPY" ->
        includes s [YEN] = true /\ includes s [EURO] = false
        /\ includes s [POUND] = false).
Proof.
  unfold detectCurrency. simpl truthy.
  destruct s as [|c s]; simpl negb; cbv iota.
  - exists (str "USD"). split; [reflexivity|]. split; [simpl; tauto|].
    repeat split; intros; try discriminate; wrong_code.
  - destruct (includes (c :: s) [RUPEE]) eqn:Hr; simpl orb.
    { exists (str "INR"). split; [reflexivity|]. split; [simpl; tauto|].
      repeat split; intros; try reflexivity; try assumption; wrong_code. }
    destruct (includes (toLowerCase pf (c :: s)) (str "inr")) eqn:Hi.
    { exists (str "INR"). split; [reflexivity|]. split; [simpl; tauto|].
      repeat split; intros; try reflexivity; try assumption; wrong_code. }
    destruct (includes (c :: s) [EURO]) eqn:He.
    { exists (str "EUR"). split; [reflexivity|]. split; [simpl; tauto|].
      repeat split; intros; try reflexivity; try assumption;
        try discriminate; wrong_code. }
    destruct (includes (c :: s) [POUND]) eqn:Hp.
    { exists (str "GBP"). split; [reflexivity|]. split; [simpl; tauto|].
      repeat split; intros; try reflexivity; try assumption;
        try discriminate; wrong_code. }
    destruct (includes (c :: s) [YEN]) eqn:Hy.
    { exists (str "JPY"). split; [reflexivity|]. split; [simpl; tauto|].
      repeat split; intros; try reflexivity; try assumption;
        try discriminate; wrong_code. }
    exists (str "USD"). split; [reflexivity|]. split; [simpl; tauto|].
    repeat split; intros; try discriminate; wrong_code.
Qed.

End PriceStringProperties.

(** ** Names from URLs *)

Lemma split_head_label sep (label rest : list char) :
  Forall (fun c => c <> sep) label ->
  head (split sep (label ++ sep :: rest)) = Some label.
Proof.
  intros Hlabel. induction Hlabel as [|c label Hc _ IH]; simpl.
  - unfold char_eqb. now rewrite N.eqb_refl.
  - unfold char_eqb. destruct (N.eqb_spec c sep); [contradiction|].
    destruct (split sep (label ++ sep :: rest)) as [|w ws]; [discriminate|].
    simpl in IH. now injection IH as ->.
Qed.

Lemma split_head_no_sep sep (s : list char) :
  Forall (fun c => c <> sep) (default [] (head (split sep s))).
Proof.
  induction s as [|c s IH]; simpl; [constructor|].
  unfold char_eqb. destruct (N.eqb_spec c sep) as [->|Hc]; [constructor|].
  destruct (split sep s) as [|w ws]; simpl in *;
    repeat constructor; auto.
Qed.

Lemma upperChar_not_special c x :
  isAlpha x = false -> c <> x -> upperChar c <> x.
Proof.
  unfold upperChar, isAlpha, isLower, isUpper, in_range.
  destruct (N.leb_spec 97 c), (N.leb_spec c 122), (N.leb_spec 97 x),
    (N.leb_spec x 122), (N.leb_spec 65 x), (N.leb_spec x 90);
    simpl; intros; try discriminate; lia.
Qed.

Section UrlNameProperties.

Variable pf : platform.

(** X7: for a host [www.<label>.<rest>] the website name is the label with
    its first letter in upper case. *)
Theorem getWebsiteName_www (url : jsstring) u (label rest : jsstring) :
  newURL pf url = Some u ->
  hostname u = str "www." ++ label ++ ch "." :: rest ->
  Forall (fun c => c <> ch ".") label ->
  getWebsiteName pf url = map upperChar (take 1 label) ++ drop 1 label.
Proof.
  intros Hurl Hhost Hlabel. unfold getWebsiteName. rewrite Hurl, Hhost.
  change (removeFirst (str "www.") (str "www." ++ label ++ ch "." :: rest))
    with (label ++ ch "." :: rest).
  now rewrite split_head_label.
Qed.

(** X8: the website name is a single label: it never contains a dot,
    whatever the URL, and is [Website] when the URL does not parse. *)
Theorem getWebsiteName_no_dot (url : jsstring) :
  Forall (fun c => c <> ch ".") (getWebsiteName pf url)
  /\ (newURL pf url = None -> getWebsiteName pf url = str "Website").
Proof.
  unfold getWebsiteName. destruct (newURL pf url) as [u|].
  - split; [|discriminate].
    pose proof (split_head_no_sep (ch ".")
                  (removeFirst (str "www.") (hostname u))) as Hhead.
    apply Forall_app. split.
    + apply Forall_fmap. apply Forall_take.
      eapply Forall_impl; [exact Hhead|].
      intros c Hc. simpl. now apply upperChar_not_special.
    + now apply Forall_drop.
  - split; [|reflexivity]. repeat constructor; discriminate.
Qed.

End UrlNameProperties.

Lemma isSpace_printable c : (33 <= c <= 159)%N -> isSpace c = false.
Proof.
  intros Hc. unfold isSpace, in_range, char_eqb.
  replace (c <=? 13) with false by (symmetry; apply N.leb_gt; lia).
  replace (8192 <=? c) with false by (symmetry; apply N.leb_gt; lia).
  repeat match goal with
         | |- context [c =? ?k] =>
             replace (c =? k) with false by (symmetry; apply N.eqb_neq; lia)
         end.
  now rewrite andb_false_r.
Qed.

Lemma isSpace_upperChar c : isSpace (upperChar c) = isSpace c.
Proof.
  unfold upperChar, isLower, in_range.
  destruct (N.leb_spec 97 c), (N.leb_spec c 122); simpl; try reflexivity.
  rewrite !isSpace_printable; [reflexivity | lia | lia].
Qed.

Lemma lang_reWordStart m :
  lang reWordStart m -> exists c, m = [c] /\ isWord c = true.
Proof.
  intros (m1 & m2 & -> & -> & (c & -> & Hc)). eauto.
Qed.

(** Title-casing rewrites code unit by code unit. *)
Lemma titleCase_pointwise s :
  Forall2 (fun c o => o = c \/ o = upperChar c) s
    (replaceAll reWordStart (map upperChar) s).
Proof.
  pose proof (replaceFrom_rewrites reWordStart (map upperChar) s None) as Hrw.
  fold (replaceAll reWordStart (map upperChar) s) in Hrw.
  induction Hrw as [|prev Hm|prev c s o Hm Hrw IH|prev c s o Hm Hrw IH
                    |prev m rest o Hne Hm Hrw IH].
  - constructor.
  - apply lang_nil_matchAt, lang_reWordStart in Hm as (c & Hc & _).
    inversion Hc.
  - constructor; auto.
  - apply lang_nil_matchAt, lang_reWordStart in Hm as (c' & Hc & _).
    inversion Hc.
  - apply matchAt_lang, lang_reWordStart in Hm as (c & -> & _).
    simpl. constructor; auto.
Qed.

Lemma Forall2_rev_list {A B} (R : A -> B -> Prop) l k :
  Forall2 R l k -> Forall2 R (rev l) (rev k).
Proof.
  induction 1; simpl; [constructor|].
  apply Forall2_app; auto.
Qed.

Lemma pointwise_headSpace s o :
  Forall2 (fun c o => o = c \/ o = upperChar c) s o ->
  headSpace o = headSpace s.
Proof.
  intros [|c x s' o' [-> | ->] _]; simpl; auto using isSpace_upperChar.
Qed.


Section SlugProperties.

Variable pf : platform.

(** X9: a name taken from a URL has more than three code units, no hyphen
    and no underscore, and no white space at either end. *)
Theorem extractProductNameFromUrl_shape (url name : jsstring) :
  extractProductNameFromUrl pf url = Some name ->
  (3 < length name)%nat
  /\ Forall (fun c => c <> ch "-" /\ c <> ch "_") name
  /\ headSpace name = false /\ lastSpace name = false.
Proof.
  unfold extractProductNameFromUrl.
  destruct (newURL pf url) as [parsed|]; [|discriminate].
  set (best := foldl pickSlug [] _).
  destruct (nonEmpty best); [|discriminate].
  set (spaced := trim _).
  pose proof (titleCase_pointwise spaced) as Hpoint.
  destruct (3 <? length (replaceAll reWordStart (map upperChar) spaced))%nat
    eqn:Hlen; [|discriminate].
  intros [= <-]. apply Nat.ltb_lt in Hlen. split; [exact Hlen|].
  assert (Forall (fun c => c <> ch "-" /\ c <> ch "_") spaced) as Hsep.
  { subst spaced. apply Forall_trim.
    do 3 (apply replaceWith_Forall; [repeat constructor; discriminate|]).
    unfold replaceWith, replaceAll, reSeparator. rewrite replaceFrom_class.
    apply Forall_flat_map. apply Forall_forall. intros c _.
    unfold char_eqb. change (ch "-") with 45. change (ch "_") with 95.
    destruct (N.eqb_spec c 45) as [->|H45]; simpl.
    - repeat constructor; discriminate.
    - destruct (N.eqb_spec c 95) as [->|H95]; repeat constructor; auto;
        discriminate. }
  split; [|split].
  - clear - Hpoint Hsep. induction Hpoint as [|c o s os [-> | ->] _ IH].
    + constructor.
    + inversion Hsep; subst. constructor; auto.
    + inversion Hsep as [|? ? [H1 H2] ?]; subst. constructor; auto.
      split; apply upperChar_not_special; auto.
  - rewrite (pointwise_headSpace _ _ Hpoint). apply headSpace_trim.
  - unfold lastSpace.
    rewrite (pointwise_headSpace _ _ (Forall2_rev_list _ _ _ Hpoint)).
    apply lastSpace_trim.
Qed.

End SlugProperties.

Lemma testFrom_sound r s : forall prev,
  testFrom r prev s = true ->
  exists pre m post, s = pre ++ m ++ post /\ lang r m.
Proof.
  induction s as [|c s IH]; intros prev; simpl.
  - destruct (matchAt r prev []) as [n|] eqn:Hm; [|discriminate].
    intros _. apply matchAt_sound in Hm as (m & rest & -> & L & _).
    exists [], m, rest. auto.
  - destruct (matchAt r prev (c :: s)) as [n|] eqn:Hm.
    + intros _. apply matchAt_sound in Hm as (m & rest & -> & L & _).
      exists [], m, rest. auto.
    + intros H. apply IH in H as (pre & m & post & -> & L).
      exists (c :: pre), m, post. auto.
Qed.

Lemma test_reLetters3 (seg : list char) :
  test reLetters3 seg = true -> exists c, In c seg /\ isAlpha c = true.
Proof.
  intros H. apply testFrom_sound in H as (pre & m & post & -> & L).
  destruct L as (m1 & m2 & -> & (a & m1' & -> & (c & -> & Hc) & _) & _).
  exists c. split; [|assumption].
  apply in_or_app. right. apply in_or_app. left. simpl. auto.
Qed.

Lemma pickSlug_skip (best seg : list char) :
  Forall (fun c => isAlpha c = false) seg \/ In seg boilerplateSegments ->
  pickSlug best seg = best.
Proof.
  intros [Hseg | Hin]; unfold pickSlug.
  - destruct (test reLetters3 seg) eqn:Ht.
    + apply test_reLetters3 in Ht as (c & Hin & Hc).
      rewrite Forall_forall in Hseg. apply list_elem_of_In in Hin.
      rewrite (Hseg c Hin) in Hc. discriminate.
    + now rewrite andb_false_r.
  - assert (test reBoilerplate seg = true) as ->.
    { simpl in Hin.
      destruct Hin as [<- | [<- | [<- | [<- | [<- | []]]]]];
        vm_compute; reflexivity. }
    now rewrite andb_false_r.
Qed.

Section SlugNull.

Variable pf : platform.

(** X10: no name comes out of a URL that does not parse, nor out of
    one whose path segments are all free of letters (numbers, signs) or
    among the words [dp], [p], [product], [item] and [pd]. *)
Theorem extractProductNameFromUrl_null (url : jsstring) :
  (newURL pf url = None -> extractProductNameFromUrl pf url = None)
  /\ (forall u,
        newURL pf url = Some u ->
        Forall (fun seg => Forall (fun c => isAlpha c = false) seg
                           \/ In seg boilerplateSegments)
          (split (ch "/") (pathname u)) ->
        extractProductNameFromUrl pf url = None).
Proof.
  unfold extractProductNameFromUrl. split.
  - now intros ->.
  - intros u -> Hsegs.
    assert (foldl pickSlug []
              (filter (fun s => Is_true (nonEmpty s))
                 (split (ch "/") (pathname u))) = []) as ->; [|reflexivity].
    enough (forall best : jsstring,
              foldl pickSlug best
                (filter (fun s => Is_true (nonEmpty s))
                   (split (ch "/") (pathname u))) = best) as H by apply H.
    induction Hsegs as [|seg segs Hseg _ IH]; intros best; [reflexivity|].
    rewrite filter_cons. destruct (decide _); [|apply IH].
    simpl. rewrite pickSlug_skip by assumption. apply IH.
Qed.

End SlugNull.

(** ** More on POST /scrape *)

Section ScrapeMore.

Variable pf : platform.

(** The product of the [try] body, with the steps that led to it. *)
Lemma scrapeBody_product w (url : jsstring) st r st' :
  scrapeBody pf w url st = (Ok r, st') ->
  (r = blockedResponse pf url /\ st' = st)
  \/ exists html extracted numericPrice cur body,
       fst (fetchHTML w url) = VStr html
       /\ extractWithGemini w (cleanHTML html) url = Ok extracted
       /\ isUnknown pf (field extracted "name") = Ok false
       /\ parseNumericPrice pf (field extracted "priceText") = Ok numericPrice
       /\ toINR pf (clock w) (rateService w) numericPrice cur st
          = (Ok (price body), st')
       /\ slice3 (orElse (field extracted "description") (VArr []))
          = Ok (description body)
       /\ r = Json body
       /\ blocked body = false
       /\ name body = field extracted "name"
       /\ searchQuery body = field extracted "name".
Proof.
  unfold scrapeBody.
  destruct (fetchHTML w url) as [html failed] eqn:Hfetch.
  destruct (fetchBlocked pf html failed); [intros [= <- <-]; now left|].
  destruct html as [| | | |html| |]; try discriminate.
  destruct (length (cleanHTML html) <? 200)%nat; [intros [= <- <-]; now left|].
  destruct (extractWithGemini w (cleanHTML html) url) as [ex|e] eqn:Hex;
    simpl; [|intros [= <- <-]; now left].
  destruct (getProp ex (str "name")) as [nm|e] eqn:Hnm;
    simpl; [|intros [= <- <-]; now left].
  destruct (isUnknown pf (field ex "name")) as [[|]|e] eqn:Hunknown;
    try discriminate; [intros [= <- <-]; now left|].
  destruct (parseNumericPrice pf (field ex "priceText")) as [num|e] eqn:Hnum;
    simpl; [|discriminate].
  destruct (truthy (field ex "currency")); simpl.
  - destruct (toINR pf (clock w) (rateService w) num (field ex "currency") st)
      as [[priceINR|e] st1] eqn:Hinr; [|discriminate].
    destruct (slice3 _) as [d|e] eqn:Hd; simpl; [|discriminate].
    intros [= <- <-]. right. exists html, ex, num, (field ex "currency").
    eexists. repeat split; try reflexivity; eassumption.
  - destruct (detectCurrency pf (field ex "priceText")) as [c|e];
      simpl; [|discriminate].
    destruct (toINR pf (clock w) (rateService w) num (VStr c) st)
      as [[priceINR|e] st1] eqn:Hinr; [|discriminate].
    destruct (slice3 _) as [d|e] eqn:Hd; simpl; [|discriminate].
    intros [= <- <-]. right. exists html, ex, num, (VStr c).
    eexists. repeat split; try reflexivity; eassumption.
Qed.

Lemma extractProductNameFromUrl_nonEmpty (url slug : jsstring) :
  extractProductNameFromUrl pf url = Some slug -> nonEmpty slug = true.
Proof.
  unfold extractProductNameFromUrl.
  destruct (newURL pf url); [|discriminate]. cbv zeta.
  destruct (nonEmpty _); [|discriminate].
  set (n := replaceAll _ _ _).
  destruct (3 <? length n)%nat eqn:Hlen; [|discriminate].
  intros [= <-]. apply Nat.ltb_lt in Hlen.
  destruct n; [simpl in Hlen; lia | reflexivity].
Qed.

Lemma isUnknown_false v :
  isUnknown pf v = Ok false ->
  exists s, v = VStr s /\ nonEmpty s = true
            /\ includes (toLowerCase pf s) (str "unknown") = false
            /\ (3 <= length (trim s))%nat.
Proof.
  unfold isUnknown. destruct (truthy v) eqn:Hv; [|discriminate].
  destruct v as [| | | |s| |]; try discriminate. simpl.
  intros [= H]. apply orb_false_iff in H as [Hinc Hlen].
  exists s. repeat split; auto. apply Nat.ltb_ge in Hlen. exact Hlen.
Qed.

(** X11: a URL with a usable slug never gets a 500.  Whatever the
    fetchers, Gemini and the rate service do, the answer to a request whose
    URL yields a slug is a JSON product, blocked or not. *)
Theorem scrape_no_server_error w (url slug : jsstring) st :
  nonEmpty url = true ->
  extractProductNameFromUrl pf url = Some slug ->
  exists body, fst (scrape pf w (Some url) st) = Json body.
Proof.
  intros Hurl Hslug. unfold scrape. rewrite Hurl.
  destruct (scrapeBody pf w url st) as [[r|e] st'] eqn:Hbody; simpl.
  - apply scrapeBody_product in Hbody
      as [[-> _] | (_ & _ & _ & _ & body & _ & _ & _ & _ & _ & _ & -> & _)].
    + destruct (blockedResponse_shape pf url) as (body & -> & _). eauto.
    + eauto.
  - unfold scrapeCatch. rewrite Hslug.
    rewrite (extractProductNameFromUrl_nonEmpty _ _ Hslug). eauto.
Qed.


(** X13: the name of a product that is not blocked is a string with at
    least three code units between its outer white space, and its lower-case
    form does not contain [unknown]. *)
Theorem scrape_product_name w url st body :
  fst (scrape pf w url st) = Json body ->
  blocked body = false ->
  exists s,
    name body = VStr s
    /\ (3 <= length (trim s))%nat
    /\ includes (toLowerCase pf s) (str "unknown") = false.
Proof.
  unfold scrape.
  destruct url as [url|]; [|discriminate].
  destruct (nonEmpty url); [|discriminate].
  destruct (scrapeBody pf w url st) as [[r|e] st'] eqn:Hbody; simpl.
  - intros -> Hblocked. apply scrapeBody_product in Hbody
      as [[Hr _] | (_ & ex & _ & _ & b & _ & _ & Hunk & _ & _ & _ & Hr & _
                     & Hname & _)].
    + destruct (blockedResponse_shape pf url) as (b & Hb & Hb' & _).
      rewrite Hb in Hr. injection Hr as ->. congruence.
    + injection Hr as ->. rewrite Hname.
      apply isUnknown_false in Hunk as (s & -> & _ & Hinc & Hlen). eauto.
  - intros Hcatch Hblocked. apply scrapeCatch_shape in Hcatch.
    destruct Hcatch as [Hb _]. congruence.
Qed.

(** X14: a product that is not blocked carries at most three description
    entries: an array of at most three items, or, when Gemini gave a string,
    its first three code units. *)
Theorem scrape_product_description w url st body :
  fst (scrape pf w url st) = Json body ->
  blocked body = false ->
  (exists items, description body = VArr items /\ (length items <= 3)%nat)
  \/ (exists s, description body = VStr s /\ (length s <= 3)%nat).
Proof.
  unfold scrape.
  destruct url as [url|]; [|discriminate].
  destruct (nonEmpty url); [|discriminate].
  destruct (scrapeBody pf w url st) as [[r|e] st'] eqn:Hbody; simpl.
  - intros -> Hblocked. apply scrapeBody_product in Hbody
      as [[Hr _] | (_ & ex & _ & _ & b & _ & _ & _ & _ & _ & Hd & Hr & _)].
    + destruct (blockedResponse_shape pf url) as (b & Hb & Hb' & _).
      rewrite Hb in Hr. injection Hr as ->. congruence.
    + injection Hr as ->. unfold slice3 in Hd.
      destruct (orElse _ _) as [| | | |s|items|]; try discriminate;
        injection Hd as <-; [right | left]; eexists; split; eauto;
        rewrite length_take; lia.
  - intros Hcatch Hblocked. apply scrapeCatch_shape in Hcatch.
    destruct Hcatch as [Hb _]. congruence.
Qed.

(** X15: the price of a JSON answer is [null] or a number [Math.round]
    produced, never a string and never a fraction; and when it is [null] in
    a product that is not blocked, no conversion took place and the rate
    cache is as it was. *)
Theorem scrape_price_rounded w url st body :
  fst (scrape pf w url st) = Json body ->
  (price body = VNull
   /\ (blocked body = false -> snd (scrape pf w url st) = st))
  \/ exists x, price body = VNum (Math_round x)
               /\ (isFiniteb x = true -> isInteger (Math_round x) = true).
Proof.
  unfold scrape.
  destruct url as [url|]; [|discriminate].
  destruct (nonEmpty url); [|discriminate].
  destruct (scrapeBody pf w url st) as [[r|e] st'] eqn:Hbody; simpl.
  - intros ->. apply scrapeBody_product in Hbody
      as [[Hr ->] | (_ & ex & num & cur & b & _ & _ & _ & _ & Hinr & _ & Hr & _)].
    + destruct (blockedResponse_shape pf url) as (b & Hb & _ & Hp & _).
      rewrite Hb in Hr. injection Hr as ->. left. auto.
    + injection Hr as ->. unfold toINR in Hinr.
      destruct (negb (truthy num) || isNaNb (toNumber pf num)).
      * injection Hinr as <- <-. left. auto.
      * destruct (getINRRate pf (clock w) (rateService w) cur st)
          as [[rate|e] st1]; [|discriminate].
        injection Hinr as <- <-. right. eexists. split; [reflexivity|].
        apply Math_round_integer.
  - intros Hcatch. apply scrapeCatch_shape in Hcatch as (Hb & Hp & _).
    left. split; [assumption|]. congruence.
Qed.

(** X16: which fetcher is used.  On a hosted server the browser is never
    launched: the answer does not depend on [fetchRenderedHTML].  On a local
    one the HTTP client is only a fallback: when the browser returns a
    non-empty page the answer does not depend on [fetchWithAxios]. *)
Theorem scrape_fetch_strategy w w' (url : jsstring) st :
  extractWithGemini w = extractWithGemini w' ->
  clock w = clock w' ->
  rateService w = rateService w' ->
  IS_CLOUD w = IS_CLOUD w' ->
  (IS_CLOUD w = true /\ fetchWithAxios w = fetchWithAxios w')
  \/ (IS_CLOUD w = false
      /\ fetchRenderedHTML w = fetchRenderedHTML w'
      /\ exists page, fetchRenderedHTML w url = Ok page
                      /\ nonEmpty page = true) ->
  scrape pf w (Some url) st = scrape pf w' (Some url) st.
Proof.
  intros Hgemini Hclock Hrates Hcloud Hcase.
  assert (fetchHTML w url = fetchHTML w' url) as Hfetch.
  { unfold fetchHTML. rewrite <- Hcloud.
    destruct Hcase as [[Hc Haxios] | (Hc & Hrendered & page & Hpage & Hne)];
      rewrite Hc.
    - simpl. now rewrite Haxios.
    - rewrite <- Hrendered, Hpage. simpl. now rewrite Hne. }
  unfold scrape, scrapeBody.
  now rewrite Hfetch, Hgemini, Hclock, Hrates.
Qed.

End ScrapeMore.

(** ** More on POST /search *)

Section SearchMore.

Variable pf : platform.


Lemma shoppingAll_length convert productName items : forall i products,
  shoppingAll pf convert productName i items = Ok products ->
  length products = length items.
Proof.
  induction items as [|it items IH]; intros i products; simpl.
  - now intros [= <-].
  - destruct (shoppingProductOf pf (convert i) productName it) as [p|e];
      simpl; [|discriminate].
    destruct (shoppingAll pf convert productName (S i) items) as [ps|e] eqn:Hps;
      simpl; [|discriminate].
    intros [= <-]. simpl. f_equal. eauto.
Qed.

(** X18: the SerpAPI branch answers at most three products, one for each
    of the first three results; a reply without [shopping_results] gives an
    empty list of products, which is not marked as a fallback. *)
Theorem searchWithShopping_count serpApiKey reply convert
  (productName : jsstring) products :
  searchWithShopping pf serpApiKey reply convert (Some productName)
  = Shopping products ->
  exists data,
    reply = Ok data
    /\ length products = Nat.min 3 (length (default [] data))
    /\ (data = None -> products = []).
Proof.
  unfold searchWithShopping.
  destruct (nonEmpty productName && keyConfigured serpApiKey); [|discriminate].
  destruct (shoppingProducts pf convert productName reply) as [ps|e] eqn:Hps;
    [|discriminate].
  intros [= <-]. unfold shoppingProducts in Hps.
  destruct reply as [data|e]; [|discriminate]. simpl in Hps.
  exists data. split; [reflexivity|].
  pose proof (shoppingAll_length _ _ _ _ _ Hps) as Hlen.
  rewrite length_take in Hlen. split; [exact Hlen|].
  intros ->. simpl in Hps. now injection Hps as <-.
Qed.

Lemma shoppingAll_In convert productName items : forall i products p,
  shoppingAll pf convert productName i items = Ok products ->
  In p products ->
  exists j it, In it items
               /\ shoppingProductOf pf (convert j) productName it = Ok p.
Proof.
  induction items as [|it items IH]; intros i products p; simpl.
  - intros [= <-] [].
  - destruct (shoppingProductOf pf (convert i) productName it) as [q|e] eqn:Hq;
      simpl; [|discriminate].
    destruct (shoppingAll pf convert productName (S i) items) as [ps|e] eqn:Hps;
      simpl; [|discriminate].
    intros [= <-] [<- | Hin].
    + exists i, it. auto.
    + destruct (IH _ _ _ Hps Hin) as (j & it' & Hit & Hp).
      exists j, it'. auto.
Qed.

Lemma truthy_orElse a b : truthy b = true -> truthy (orElse a b) = true.
Proof. unfold orElse. destruct (truthy a) eqn:Ha; auto. Qed.

(** X19: every product of the SerpAPI branch can be shown and followed:
    its name, its price text and its link are truthy (the link is [#] at
    worst, the price text [N/A]), and its description has one to three
    lines, all non-empty strings. *)
Theorem searchWithShopping_products serpApiKey reply convert
  (productName : jsstring) products p :
  searchWithShopping pf serpApiKey reply convert (Some productName)
  = Shopping products ->
  In p products ->
  truthy (spName p) = true
  /\ truthy (spPriceText p) = true
  /\ truthy (spUrl p) = true
  /\ (1 <= length (spDescription p) <= 3)%nat
  /\ Forall (fun line => exists s, line = VStr s /\ nonEmpty s = true)
       (spDescription p).
Proof.
  unfold searchWithShopping.
  destruct (nonEmpty productName) eqn:Hname; [|discriminate].
  destruct (keyConfigured serpApiKey); [|discriminate]. simpl.
  destruct (shoppingProducts pf convert productName reply) as [ps|e] eqn:Hps;
    [|discriminate].
  intros [= <-] Hin. unfold shoppingProducts in Hps.
  destruct reply as [data|e]; [|discriminate]. simpl in Hps.
  destruct (shoppingAll_In _ _ _ _ _ _ Hps Hin) as (j & it & _ & Hp).
  unfold shoppingProductOf in Hp.
  destruct (parseNumericPrice pf (itemField it "price")) as [num|e];
    simpl in Hp; [|discriminate].
  destruct (detectCurrency pf (itemField it "price")) as [cur|e];
    simpl in Hp; [|discriminate].
  destruct (convert j num (VStr cur)) as [priceINR|e]; simpl in Hp;
    [|discriminate].
  injection Hp as <-. simpl.
  split; [apply truthy_orElse; exact Hname|].
  split; [destruct (truthy priceINR); [reflexivity|];
          apply truthy_orElse; reflexivity|].
  split; [apply truthy_orElse; reflexivity|].
  unfold shoppingDescription.
  destruct (truthy (itemField it "source")),
    (truthy (itemField it "rating")),
    (truthy (itemField it "delivery"));
    simpl; (split; [lia|]); repeat constructor; eexists; split;
    reflexivity.
Qed.



End SearchMore.

(** ** extractWithGemini *)

Lemma matchAt_startsIn p r prev s :
  startsIn p r ->
  (forall c, head s = Some c -> p c = false) ->
  matchAt r prev s = None.
Proof.
  intros Hr Hhead. destruct (matchAt r prev s) as [n|] eqn:Hm; [|reflexivity].
  apply matchAt_sound in Hm as (m & rest & -> & L & _).
  apply Hr in L as (c & m' & -> & Hc).
  rewrite (Hhead c eq_refl) in Hc. discriminate.
Qed.

(** A search skips a prefix in which no match can start. *)
Lemma execFrom_skip {A} (tryAt : option char -> jsstring -> option A)
  (p : char -> bool) a rest :
  (forall prev c s, p c = false -> tryAt prev (c :: s) = None) ->
  Forall (fun c => p c = false) a ->
  rest <> [] ->
  forall prev, exists prev',
    execFrom tryAt prev (a ++ rest) = execFrom tryAt prev' rest.
Proof.
  intros Htry Ha Hrest. induction Ha as [|c a Hc _ IH]; intros prev.
  - now exists prev.
  - simpl. rewrite Htry by assumption. apply IH.
Qed.

Lemma execFrom_none {A} (tryAt : option char -> jsstring -> option A)
  (p : char -> bool) s :
  (forall prev c s, p c = false -> tryAt prev (c :: s) = None) ->
  (forall prev, tryAt prev [] = None) ->
  Forall (fun c => p c = false) s ->
  forall prev, execFrom tryAt prev s = None.
Proof.
  intros Htry Hnil Hs. induction Hs as [|c s Hc _ IH]; intros prev; simpl.
  - now rewrite Hnil.
  - rewrite Htry by assumption. apply IH.
Qed.

Lemma startsIn_reFence : startsIn (char_eqb 96) reFence.
Proof.
  unfold reFence, reFenceOpen.
  change (str "```json") with (96 :: str "``json").
  do 2 apply startsIn_seq. apply startsIn_lit.
Qed.

Lemma fenceAt_other prev c s : char_eqb 96 c = false -> fenceAt prev (c :: s) = None.
Proof.
  intros Hc. unfold fenceAt.
  rewrite (matchAt_startsIn _ _ prev (c :: s) startsIn_reFence);
    [reflexivity|].
  now intros c' [= <-].
Qed.

Lemma fenceAt_nil prev : fenceAt prev [] = None.
Proof. reflexivity. Qed.

Lemma bracesAt_other prev c s :
  char_eqb 123 c = false -> bracesAt prev (c :: s) = None.
Proof.
  intros Hc. unfold bracesAt, matchAt, reBraces. cbn [rmatch]. now rewrite Hc.
Qed.

Lemma rmatch_seq r1 r2 prev s k :
  rmatch (Seq r1 r2) prev s k
  = rmatch r1 prev s (fun p' s' => rmatch r2 p' s' k).
Proof. reflexivity. Qed.

Lemma rmatch_chr p prev c s k :
  rmatch (Chr p) prev (c :: s) k = if p c then k (Some c) s else None.
Proof. reflexivity. Qed.

(** The greedy [[\s\S]*] followed by [}] stops at the last [}]. *)
Lemma rmatch_any_no_brace s : forall prev,
  Forall (fun c => c <> 125) s ->
  rmatch (Star true anyChar) prev s
    (fun p s' => rmatch (Chr (char_eqb 125)) p s' accept) = None.
Proof.
  unfold anyChar.
  induction s as [|c s IH]; intros prev Hs; [reflexivity|].
  inversion Hs as [|? ? Hc Hs']; subst.
  rewrite rmatch_star_cons. cbv zeta beta iota.
  rewrite IH by assumption. cbn [rmatch].
  unfold char_eqb. destruct (N.eqb_spec 125 c); [congruence | reflexivity].
Qed.

Lemma rmatch_any_last_brace b c : forall prev,
  Forall (fun x => x <> 125) c ->
  rmatch (Star true anyChar) prev (b ++ 125 :: c)
    (fun p s' => rmatch (Chr (char_eqb 125)) p s' accept) = Some c.
Proof.
  intros prev Hc. revert prev.
  pose proof (fun prev => rmatch_any_no_brace c prev Hc) as Hnone.
  unfold anyChar in *.
  induction b as [|x b IH]; intros prev; simpl app;
    rewrite rmatch_star_cons; cbv zeta beta iota.
  - rewrite Hnone. cbn [rmatch]. reflexivity.
  - now rewrite IH.
Qed.

Lemma bracesAt_span prev b c :
  Forall (fun x => x <> 125) c ->
  bracesAt prev (123 :: b ++ 125 :: c) = Some (123 :: b ++ [125]).
Proof.
  intros Hc. unfold bracesAt, matchAt, reBraces.
  rewrite rmatch_seq, rmatch_chr.
  change (char_eqb 123 123) with true. cbv iota.
  rewrite rmatch_seq, rmatch_any_last_brace by assumption.
  f_equal.
  replace (123 :: b ++ 125 :: c) with ((123 :: b ++ [125]) ++ c)
    by (simpl; now rewrite <- app_assoc).
  rewrite length_app.
  generalize (123 :: b ++ [125]). intros m.
  rewrite Nat.add_sub. apply take_app_length.
Qed.

Section GeminiProperties.

Variable generateContent : jsstring -> jsstring -> jsstring -> result jsstring.
Variable JSON_parse : jsstring -> result value.
Variable errorMessage : error -> jsstring.

Lemma geminiLoop_app text url failed rest : forall lastError,
  Forall (fun m =>
            exists e,
              geminiAttempt generateContent JSON_parse text url m = Throw e)
    failed ->
  exists lastError',
    geminiLoop generateContent JSON_parse errorMessage text url lastError
      (failed ++ rest)
    = geminiLoop generateContent JSON_parse errorMessage text url lastError'
        rest
    /\ (failed = [] -> lastError' = lastError)
    /\ (forall m e,
          last failed = Some m ->
          geminiAttempt generateContent JSON_parse text url m = Throw e ->
          lastError' = Some e).
Proof.
  intros lastError Hfailed. revert lastError.
  induction Hfailed as [|m failed [e He] _ IH]; intros lastError.
  - exists lastError. repeat split; auto. discriminate.
  - simpl. rewrite He. destruct (IH (Some e)) as (l' & Hloop & Hnil & Hlast).
    exists l'. split; [exact Hloop|]. split; [discriminate|].
    intros m' e' Hm' He'. destruct failed as [|m2 failed].
    + simpl in Hm'. injection Hm' as <-. rewrite Hnil by reflexivity.
      congruence.
    + apply (Hlast m' e'); auto.
Qed.

(** X21: the models are tried in their priority order and the first whose
    reply yields JSON that parses decides: the extraction is an [Ok] exactly
    when the list splits into models that throw, a model that succeeds with
    this value, and models that are not consulted.  When all three throw,
    the function throws [All Gemini models failed] with the message of the
    error of the last model. *)
Theorem extractWithGemini_priority (text url : jsstring) :
  (forall v,
     extractWithGeminiOver generateContent JSON_parse errorMessage text url
     = Ok v <->
     exists failed m later,
       GEMINI_MODELS = failed ++ m :: later
       /\ Forall (fun m' =>
                   exists e,
                     geminiAttempt generateContent JSON_parse text url m'
                     = Throw e) failed
       /\ geminiAttempt generateContent JSON_parse text url m = Ok v)
  /\ (Forall (fun m =>
                exists e,
                  geminiAttempt generateContent JSON_parse text url m
                  = Throw e) GEMINI_MODELS ->
      exists e,
        geminiAttempt generateContent JSON_parse text url
          (str "gemini-2.5-flash") = Throw e
        /\ extractWithGeminiOver generateContent JSON_parse errorMessage
             text url
           = Throw (ServiceError
                      (str "All Gemini models failed. Last error: "
                       ++ errorMessage e))).
Proof.
  unfold extractWithGeminiOver. split.
  - intros v. split.
    + unfold GEMINI_MODELS. simpl.
      destruct (geminiAttempt generateContent JSON_parse text url
                  (str "gemini-2.0-flash")) as [v1|e1] eqn:H1.
      { intros [= <-]. exists [], (str "gemini-2.0-flash"). eexists.
        repeat split; auto. }
      destruct (geminiAttempt generateContent JSON_parse text url
                  (str "gemini-2.0-flash-001")) as [v2|e2] eqn:H2.
      { intros [= <-]. exists [str "gemini-2.0-flash"],
          (str "gemini-2.0-flash-001"). eexists.
        repeat split; auto. repeat constructor. eauto. }
      destruct (geminiAttempt generateContent JSON_parse text url
                  (str "gemini-2.5-flash")) as [v3|e3] eqn:H3.
      { intros [= <-].
        exists [str "gemini-2.0-flash"; str "gemini-2.0-flash-001"],
          (str "gemini-2.5-flash"), []. repeat split; auto.
        repeat constructor; eauto. }
      discriminate.
    + intros (failed & m & later & -> & Hfailed & Hm).
      destruct (geminiLoop_app text url failed (m :: later) None Hfailed)
        as (l' & -> & _).
      simpl. now rewrite Hm.
  - intros Hall. unfold GEMINI_MODELS in *. simpl in *.
    inversion Hall as [|? ? [e1 H1] Hall2]; subst.
    inversion Hall2 as [|? ? [e2 H2] Hall3]; subst.
    inversion Hall3 as [|? ? [e3 H3] _]; subst.
    exists e3. rewrite H1, H2, H3. auto.
Qed.

(** X22: a reply without a backquote and without an opening brace holds
    no JSON for the function: the attempt of that model throws
    [No JSON in response], and [JSON.parse] is not called. *)
Theorem geminiAttempt_no_json (text url modelName reply : jsstring) :
  generateContent modelName text url = Ok reply ->
  Forall (fun c => c <> ch "`" /\ c <> ch "{") reply ->
  geminiAttempt generateContent JSON_parse text url modelName
  = Throw (ServiceError (str "No JSON in response")).
Proof.
  intros Hreply Hplain. unfold geminiAttempt. rewrite Hreply. simpl.
  unfold jsonText.
  rewrite (execFrom_none fenceAt (char_eqb 96));
    [|exact fenceAt_other | exact fenceAt_nil|].
  - rewrite (execFrom_none bracesAt (char_eqb 123));
      [reflexivity | exact bracesAt_other | reflexivity|].
    eapply Forall_impl; [exact Hplain|].
    intros c [_ Hc]. apply N.eqb_neq. intros <-. now apply Hc.
  - eapply Forall_impl; [exact Hplain|].
    intros c [Hc _]. apply N.eqb_neq. intros <-. now apply Hc.
Qed.

(** X23: without a fenced block, the text handed to [JSON.parse] runs
    from the first opening brace of the reply to its last closing brace,
    whatever stands between them. *)
Theorem geminiAttempt_braces (text url modelName before inside after : jsstring) :
  generateContent modelName text url
  = Ok (before ++ ch "{" :: inside ++ ch "}" :: after) ->
  Forall (fun c => c <> ch "`")
    (before ++ ch "{" :: inside ++ ch "}" :: after) ->
  Forall (fun c => c <> ch "{") before ->
  Forall (fun c => c <> ch "}") after ->
  geminiAttempt generateContent JSON_parse text url modelName
  = JSON_parse (ch "{" :: inside ++ [ch "}"]).
Proof.
  intros Hreply Hticks Hbefore Hafter.
  unfold geminiAttempt. rewrite Hreply. cbn [bind].
  assert (jsonText (before ++ ch "{" :: inside ++ ch "}" :: after)
          = Ok (ch "{" :: inside ++ [ch "}"])) as ->; [|reflexivity].
  unfold jsonText.
  rewrite (execFrom_none fenceAt (char_eqb 96));
    [|exact fenceAt_other | exact fenceAt_nil|].
  - destruct (execFrom_skip bracesAt (char_eqb 123) before
                (ch "{" :: inside ++ ch "}" :: after) bracesAt_other)
      with (prev := @None char) as [prev' ->].
    + eapply Forall_impl; [exact Hbefore|].
      intros c Hc. apply N.eqb_neq. intros <-. now apply Hc.
    + discriminate.
    + change (ch "{") with 123. change (ch "}") with 125.
      cbn [execFrom]. now rewrite bracesAt_span.
  - eapply Forall_impl; [exact Hticks|].
    intros c Hc. apply N.eqb_neq. intros <-. now apply Hc.
Qed.

End GeminiProperties.

Lemma rmatch_lit_prefix w s k out : forall prev,
  (forall p, k p s = Some out) ->
  rmatch (lit w) prev (w ++ s) k = Some out.
Proof.
  induction w as [|c w IH]; intros prev Hk; simpl lit; simpl app.
  - apply Hk.
  - rewrite rmatch_seq, rmatch_chr. unfold char_eqb. rewrite N.eqb_refl.
    now apply IH.
Qed.

Lemma rmatch_spaces_then (k : cont) ws rest out :
  Forall (fun c => isSpace c = true) ws ->
  headSpace rest = false ->
  (forall p, k p rest = Some out) ->
  forall prev, rmatch (Star true (Chr isSpace)) prev (ws ++ rest) k = Some out.
Proof.
  intros Hws Hrest Hk. induction Hws as [|c ws Hc _ IH]; intros prev.
  - simpl app. destruct rest as [|x rest]; [apply Hk|].
    rewrite rmatch_star_cons. cbv zeta. simpl in Hrest. rewrite Hrest.
    apply Hk.
  - simpl app. rewrite rmatch_star_cons. cbv zeta. rewrite Hc. now rewrite IH.
Qed.

Lemma rmatch_lazy_until (k : cont) body tail out :
  (forall p, k p tail = Some out) ->
  (forall p x s, x <> 96 -> k p (x :: s) = None) ->
  Forall (fun c => c <> 96) body ->
  forall prev, rmatch reFenceGroup prev (body ++ tail) k = Some out.
Proof.
  intros Htail Hother Hbody. unfold reFenceGroup, anyChar.
  induction Hbody as [|c body Hc _ IH]; intros prev.
  - simpl app. destruct tail as [|x tail]; [apply Htail|].
    rewrite rmatch_star_cons. cbv zeta. now rewrite Htail.
  - simpl app. rewrite rmatch_star_cons. cbv zeta beta iota.
    rewrite Hother by assumption. apply IH.
Qed.

Lemma rmatch_close_other (k : cont) p x s :
  x <> 96 -> rmatch reFenceClose p (x :: s) k = None.
Proof.
  intros Hx. unfold reFenceClose. change (str "```") with (96 :: str "``").
  simpl lit. rewrite rmatch_seq, rmatch_chr.
  unfold char_eqb. destruct (N.eqb_spec 96 x); [congruence | reflexivity].
Qed.

(** At a fenced block the match is the block and the group its body. *)
Lemma fenceAt_block prev ws body after :
  Forall (fun c => isSpace c = true) ws ->
  headSpace body = false ->
  Forall (fun c => c <> 96) body ->
  fenceAt prev (str "```json" ++ ws ++ body ++ str "```" ++ after)
  = Some (str "```json" ++ ws ++ body ++ str "```", body).
Proof.
  intros Hws Hhead Hbody.
  assert (headSpace (body ++ str "```" ++ after) = false) as Hhead'.
  { destruct body; [reflexivity | exact Hhead]. }
  unfold fenceAt.
  assert (matchAt reFence prev
            (str "```json" ++ ws ++ body ++ str "```" ++ after)
          = Some (length (str "```json" ++ ws ++ body ++ str "```"))) as ->.
  { unfold matchAt, reFence, reFenceOpen.
    rewrite !rmatch_seq.
    rewrite (rmatch_lit_prefix _ _ _ after).
    - f_equal. rewrite !length_app. lia.
    - intros p. apply rmatch_spaces_then; [assumption .. |].
      intros p1. rewrite rmatch_seq.
      apply rmatch_lazy_until; [| |assumption].
      + intros p2. unfold reFenceClose.
        rewrite <- (app_nil_r (str "```")) at 2.
        rewrite <- app_assoc.
        apply (rmatch_lit_prefix (str "```") ([] ++ after)). reflexivity.
      + intros p2 x s Hx. now apply rmatch_close_other. }
  assert (fenceGroupAt prev
            (str "```json" ++ ws ++ body ++ str "```" ++ after)
          = Some body) as ->.
  { unfold fenceGroupAt, reFenceOpen. rewrite rmatch_seq.
    apply rmatch_lit_prefix. intros p.
    apply (rmatch_spaces_then _ ws (body ++ str "```" ++ after));
      [assumption .. |].
    intros p1.
    apply (rmatch_lazy_until _ body (str "```" ++ after)); [| |assumption].
    - intros p2. unfold reFenceClose.
      apply rmatch_lit_prefix. intros _. f_equal.
      rewrite length_app, Nat.add_sub. apply take_app_length.
    - intros p2 x s Hx. now apply rmatch_close_other. }
  f_equal. f_equal.
  rewrite !app_assoc. apply take_app_length.
Qed.

Section GeminiFence.

Variable generateContent : jsstring -> jsstring -> jsstring -> result jsstring.
Variable JSON_parse : jsstring -> result value.

(** X24: a fenced block wins over braces.  When the reply holds a block
    [```json ... ```] with no backquote before it or in it, the text handed
    to [JSON.parse] is the body of the block, without the white space that
    follows the opening fence, wherever braces stand in the reply. *)
Theorem geminiAttempt_fence (text url modelName before ws body after : jsstring) :
  generateContent modelName text url
  = Ok (before ++ str "```json" ++ ws ++ body ++ str "```" ++ after) ->
  Forall (fun c => c <> ch "`") before ->
  Forall (fun c => isSpace c = true) ws ->
  nonEmpty body = true ->
  headSpace body = false ->
  Forall (fun c => c <> ch "`") body ->
  geminiAttempt generateContent JSON_parse text url modelName
  = JSON_parse body.
Proof.
  intros Hreply Hbefore Hws Hne Hhead Hbody.
  unfold geminiAttempt. rewrite Hreply. cbn [bind].
  assert (jsonText (before ++ str "```json" ++ ws ++ body ++ str "```" ++ after)
          = Ok body) as ->; [|reflexivity].
  unfold jsonText.
  destruct (execFrom_skip fenceAt (char_eqb 96) before
              (str "```json" ++ ws ++ body ++ str "```" ++ after) fenceAt_other)
    with (prev := @None char) as [prev' ->].
  - eapply Forall_impl; [exact Hbefore|].
    intros c Hc. apply N.eqb_neq. intros <-. now apply Hc.
  - discriminate.
  - assert (execFrom fenceAt prev'
              (str "```json" ++ ws ++ body ++ str "```" ++ after)
            = Some (str "```json" ++ ws ++ body ++ str "```", body)) as ->.
    { change (str "```json" ++ ws ++ body ++ str "```" ++ after)
        with (96 :: (str "``json" ++ ws ++ body ++ str "```" ++ after)).
      cbn [execFrom].
      change (96 :: (str "``json" ++ ws ++ body ++ str "```" ++ after))
        with (str "```json" ++ ws ++ body ++ str "```" ++ after).
      now rewrite fenceAt_block. }
    now rewrite Hne.
Qed.

End GeminiFence.

(** ** More on the cleaner *)

(** X25: the text [cleanHTML] returns is normalised, whatever the input:
    it has no two white-space characters side by side and none at its
    start, and none at its end unless the cap cut the text. *)
Theorem cleanHTML_normalised (html : jsstring) :
  noAdjacentSpaces (cleanHTML html) = true
  /\ headSpace (cleanHTML html) = false
  /\ ((length (stripHTML html) <= N.to_nat 8000)%nat ->
      lastSpace (cleanHTML html) = false).
Proof.
  unfold cleanHTML, slice0. repeat split.
  - apply noAdjacentSpaces_take. unfold stripHTML.
    apply noAdjacentSpaces_trim, collapse_noAdjacentSpaces.
  - apply headSpace_take. unfold stripHTML. apply headSpace_trim.
  - intros Hle. rewrite take_ge by assumption. apply lastSpace_trim.
Qed.

(** X26: [cleanHTML] invents nothing.  Every code unit of its result is a
    code unit of the input or one of the four it writes itself: the space,
    [&], [<] and [>]. *)
Theorem cleanHTML_no_new_characters (html : jsstring) :
  Forall (fun c => In c html \/ In c [ch " "; ch "&"; ch "<"; ch ">"])
    (cleanHTML html).
Proof.
  unfold cleanHTML, slice0. apply Forall_take. unfold stripHTML.
  apply Forall_trim.
  repeat (apply replaceWith_Forall;
          [repeat constructor; right; simpl; tauto|]).
  apply Forall_forall. intros c Hc. left. now apply list_elem_of_In.
Qed.

(** ** The page *)

Section MarkProperties.

Variable pf : platform.

Lemma leNumber_refl n : notNaN n -> leNumber n n = true.
Proof.
  destruct n; try discriminate; try reflexivity.
  intros _. simpl. apply Qle_bool_iff. apply Qle_refl.
Qed.

Lemma leNumber_trans a b c :
  leNumber a b = true -> leNumber b c = true -> leNumber a c = true.
Proof.
  destruct a, b, c; simpl; try discriminate; try reflexivity.
  rewrite !Qle_bool_iff. apply Qle_trans.
Qed.

Lemma leNumber_total a b :
  notNaN a -> notNaN b -> leNumber a b = false -> leNumber b a = true.
Proof.
  destruct a, b; simpl; try discriminate; try reflexivity.
  intros _ _ H. apply Qle_bool_iff. apply Qlt_le_weak. apply Qnot_le_lt.
  intros Hle. apply Qle_bool_iff in Hle. congruence.
Qed.

Lemma strictEqNumber_le a b :
  strictEqNumber (VNum a) b = true
  <-> notNaN a /\ leNumber a b = true /\ leNumber b a = true.
Proof.
  unfold notNaN.
  destruct a, b; simpl; split; try discriminate; try tauto;
    try (intros (_ & H1 & H2); discriminate).
  - intros H. apply Qeq_bool_iff in H. repeat split;
      apply Qle_bool_iff; rewrite H; apply Qle_refl.
  - intros (_ & H1 & H2). apply Qeq_bool_iff.
    apply Qle_bool_iff in H1, H2. now apply Qle_antisym.
Qed.

Lemma minNumber_fold ns : forall n,
  notNaN n -> Forall notNaN ns ->
  let m := foldl minNumber n ns in
  notNaN m /\ (m = n \/ In m ns)
  /\ leNumber m n = true /\ Forall (fun x => leNumber m x = true) ns.
Proof.
  induction ns as [|x ns IH]; intros n Hn Hns; simpl.
  - repeat split; auto using leNumber_refl.
  - inversion Hns as [|? ? Hx Hns']; subst.
    assert (notNaN (minNumber n x)) as Hmin
      by (unfold minNumber; destruct (leNumber n x); assumption).
    destruct (IH (minNumber n x) Hmin Hns') as (Hm & Hin & Hle & Hall).
    assert (leNumber (minNumber n x) n = true
            /\ leNumber (minNumber n x) x = true) as [Hmn Hmx].
    { unfold minNumber. destruct (leNumber n x) eqn:Hnx.
      - split; [now apply leNumber_refl | assumption].
      - split; [now apply leNumber_total | now apply leNumber_refl]. }
    repeat split; auto.
    + destruct Hin as [-> | Hin]; [|auto].
      unfold minNumber. destruct (leNumber n x); auto.
    + eapply leNumber_trans; eauto.
    + constructor; [eapply leNumber_trans; eauto | assumption].
Qed.

Lemma filter_isPrice prices :
  Forall sentPrice prices ->
  Forall (fun p => exists n, p = VNum n /\ notNaN n)
    (List.filter (isPrice pf) prices)
  /\ forall n, notNaN n ->
       (In (VNum n) (List.filter (isPrice pf) prices) <-> In (VNum n) prices).
Proof.
  intros Hsent. split.
  - induction Hsent as [|p prices [-> | (n & -> & Hn)] _ IH]; simpl; auto.
    unfold notNaN in Hn. rewrite Hn. simpl. constructor; eauto.
  - intros n Hn. rewrite filter_In. unfold isPrice. simpl.
    unfold notNaN in Hn. rewrite Hn. tauto.
Qed.

Lemma minPrice_spec prices :
  Forall (fun p => exists n, p = VNum n /\ notNaN n) prices ->
  match minPrice pf prices with
  | None => prices = []
  | Some lo =>
      notNaN lo /\ In (VNum lo) prices
      /\ forall n, In (VNum n) prices -> leNumber lo n = true
  end.
Proof.
  intros Hprices. unfold minPrice.
  destruct prices as [|p prices]; [reflexivity|].
  inversion Hprices as [|? ? (n & -> & Hn) Htail]; subst. simpl map.
  assert (Forall notNaN (map (toNumber pf) prices)) as Hnums.
  { apply Forall_fmap. eapply Forall_impl; [exact Htail|].
    now intros p (x & -> & Hx). }
  destruct (minNumber_fold (map (toNumber pf) prices) n Hn Hnums)
    as (Hm & Hin & Hle & Hall).
  split; [exact Hm|]. split.
  - destruct Hin as [-> | Hin]; [now left|]. right.
    apply in_map_iff in Hin as (p & Hp & Hin).
    rewrite Forall_forall in Htail.
    destruct (Htail p) as (x & -> & _); [now apply list_elem_of_In|].
    simpl in Hp. now subst.
  - intros x [[= <-] | Hx]; [exact Hle|].
    rewrite Forall_forall in Hall. apply Hall. apply list_elem_of_In.
    apply in_map_iff. exists (VNum x). auto.
Qed.

(** X27: which product is the best price.  For the prices the server
    sends, a product is marked lowest exactly when it has a price and no
    product has a smaller one: products without a price are never marked,
    and all the products tied at the least price are. *)
Theorem priceMarks_lowest (prices : list value) (i : nat) p :
  Forall sentPrice prices ->
  prices !! i = Some p ->
  exists lowest highest,
    priceMarks pf prices !! i = Some (lowest, highest)
    /\ (lowest = true <->
        exists n, p = VNum n
                  /\ forall m, In (VNum m) prices -> leNumber n m = true).
Proof.
  intros Hsent Hp. unfold priceMarks. cbv zeta.
  rewrite list_lookup_fmap, Hp. simpl. eexists _, _. split; [reflexivity|].
  destruct (filter_isPrice prices Hsent) as [Hnums Hfiltered].
  pose proof (minPrice_spec _ Hnums) as Hmin.
  assert (sentPrice p) as Hsp.
  { rewrite Forall_forall in Hsent. apply Hsent.
    eapply list_elem_of_lookup_2; eauto. }
  assert (In p prices) as Hin
    by (apply list_elem_of_In; eapply list_elem_of_lookup_2; eauto).
  destruct (minPrice pf (List.filter (isPrice pf) prices)) as [lo|].
  - destruct Hmin as (Hlo & Hloin & Hleast). split.
    + intros H. apply andb_true_iff in H as [Heq _].
      destruct Hsp as [-> | (n & -> & Hn)]; [discriminate|].
      exists n. split; [reflexivity|]. intros m Hm.
      apply strictEqNumber_le in Heq as (_ & Hnlo & _).
      assert (notNaN m) as Hmn.
      { rewrite Forall_forall in Hsent.
        destruct (Hsent (VNum m)) as [[=] | (x & [= <-] & Hx)];
          [now apply list_elem_of_In | exact Hx]. }
      eapply leNumber_trans; [exact Hnlo|].
      apply Hleast. now apply Hfiltered.
    + intros (n & -> & Hn).
      assert (notNaN n) as Hnn
        by (destruct Hsp as [[=] | (x & [= <-] & Hx)]; exact Hx).
      assert (strictEqNumber (VNum n) lo = true) as Heq.
      { apply strictEqNumber_le. repeat split; auto.
        - apply Hn. now apply Hfiltered.
        - apply Hleast. now apply Hfiltered. }
      rewrite Heq. cbn [andb].
      assert (In (VNum n)
                (List.filter (fun q => strictEqNumber q lo)
                   (List.filter (isPrice pf) prices))) as Hcount.
      { apply filter_In. split; [now apply Hfiltered | exact Heq]. }
      destruct (List.filter (fun q => strictEqNumber q lo) _);
        [destruct Hcount | reflexivity].
  - split; [discriminate|]. intros (n & -> & _).
    assert (notNaN n) as Hnn
      by (destruct Hsp as [[=] | (x & [= <-] & Hx)]; exact Hx).
    apply (Hfiltered n Hnn) in Hin. rewrite Hmin in Hin. destruct Hin.
Qed.

(** X28: no product carries both badges, whatever the prices are. *)
Theorem priceMarks_exclusive (prices : list value) :
  Forall (fun mark => fst mark && snd mark = false) (priceMarks pf prices).
Proof.
  unfold priceMarks. cbv zeta. apply Forall_fmap. apply Forall_forall.
  intros p _. unfold compose. cbn beta.
  destruct (minPrice pf _) as [lo|]; [|reflexivity].
  cbn [fst snd].
  destruct (maxPrice pf _) as [hi|]; [|apply andb_false_r].
  destruct (strictEqNumber p lo) eqn:Hlo; [|reflexivity].
  destruct (strictEqNumber p hi) eqn:Hhi; [|apply andb_false_r].
  assert (strictEqNumber (VNum lo) hi = true) as ->;
    [|apply andb_false_r].
  destruct p as [| | |n| | |]; try discriminate.
  apply strictEqNumber_le in Hlo as (Hn & H1 & H2).
  apply strictEqNumber_le in Hhi as (_ & H3 & H4).
  apply strictEqNumber_le. repeat split.
  - destruct lo; try reflexivity. destruct n; discriminate.
  - eapply leNumber_trans; eauto.
  - eapply leNumber_trans; eauto.
Qed.

(** X29: the static fallback list is shown without a badge: none of its
    entries is marked lowest or highest. *)
Theorem priceMarks_fallback serpApiKey searchShopping (productName : jsstring)
  products :
  search pf serpApiKey searchShopping (Some productName)
  = SearchJson products true ->
  Forall (fun mark => mark = (false, false))
    (priceMarks pf (map entryPrice products)).
Proof.
  unfold search. destruct (nonEmpty productName); [|discriminate].
  assert (Forall (fun mark => mark = (false, false))
            (priceMarks pf
               (map entryPrice (map (fallbackEntry pf productName) retailers))))
    as Hfallback by (repeat constructor).
  destruct (keyConfigured serpApiKey).
  - destruct (searchShopping productName); [discriminate|].
    now intros [= <-].
  - now intros [= <-].
Qed.

End MarkProperties.

(** X30: a name is asked for once.  [getName] never returns the empty
    string; a name it stores is the name it returns, trimmed, and from then
    on every visit returns that name without reading the prompt. *)
Theorem getName_remembered (stored answer : option jsstring) :
  let '(name0, stored') := getName stored answer in
  nonEmpty name0 = true
  /\ (stored' = stored \/ stored' = Some name0)
  /\ (stored' = Some name0 ->
      forall answer', getName stored' answer' = (name0, stored'))
  /\ (stored' <> stored -> headSpace name0 = false /\ lastSpace name0 = false).
Proof.
  unfold getName.
  destruct (nonEmpty (default [] stored)) eqn:Hstored.
  - split; [exact Hstored|]. split; [now left|]. split.
    + intros -> answer'. simpl in *. now rewrite Hstored.
    + intros H. now destruct H.
  - destruct (nonEmpty (default [] answer) &&
              (0 <? length (trim (default [] answer)))%nat) eqn:Hanswer.
    + apply andb_true_iff in Hanswer as [_ Hlen]. apply Nat.ltb_lt in Hlen.
      assert (nonEmpty (trim (default [] answer)) = true) as Hne
        by (destruct (trim (default [] answer)); [simpl in Hlen; lia | reflexivity]).
      split; [exact Hne|]. split; [now right|]. split.
      * intros _ answer'. simpl. now rewrite Hne.
      * intros _. split; [apply headSpace_trim | apply lastSpace_trim].
    + split; [reflexivity|]. split; [now left|]. split.
      * intros -> answer'. simpl in Hstored. discriminate.
      * intros H. now destruct H.
Qed.

(** ** Closed instances of the further properties *)

Lemma getINRRate_refresh_then_hit_witness :
  needsRefresh t0 (str "USD") initialCache = true
  /\ liveRates !! str "USD" = Some (Fin (119 # 10000))
  /\ let first :=
       getINRRate refPlatform t0 (Some liveRates) (VStr (str "USD"))
         initialCache in
     snd first = freshCache
     /\ getINRRate refPlatform (t0 + 1000) None (VStr (str "USD")) (snd first)
        = first.
Proof.
  split; [reflexivity|]. split; [vm_compute; reflexivity|].
  apply (getINRRate_refresh_then_hit refPlatform t0 (t0 + 1000) liveRates None
           (str "USD") (Fin (119 # 10000)) initialCache);
    [reflexivity | vm_compute; reflexivity | reflexivity | unfold t0; lia].
Defined.

Lemma getINRRate_unlisted_spelling_witness :
  exchangeRates freshCache !! str "usd" = None
  /\ inherited (str "usd") = false
  /\ getINRRate refPlatform (t0 + 1000) (Some liveRates) (VStr (str "usd"))
       freshCache
     = (Ok (fdiv refPlatform (Fin 1) (Fin (119 # 10000))),
        {| exchangeRates := liveRates; ratesFetchedAt := t0 + 1000 |}).
Proof.
  split; [vm_compute; reflexivity|]. split; [reflexivity|].
  apply (proj2 (getINRRate_unlisted_spelling refPlatform (t0 + 1000)
                  (Some liveRates) (str "usd") freshCache
                  ltac:(vm_compute; reflexivity) eq_refl)
           liveRates (Fin (119 # 10000)));
    [reflexivity | intros H; vm_compute in H; inversion H
     | vm_compute; reflexivity | reflexivity].
Defined.

Lemma getINRRate_default_rate_witness :
  toUpperCase refPlatform (str "xyz") <> str "INR"
  /\ inherited (toUpperCase refPlatform (str "xyz")) = false
  /\ fst (getINRRate refPlatform t0 None (VStr (str "xyz")) initialCache)
     = Ok (Fin 83).
Proof.
  assert (toUpperCase refPlatform (str "xyz") <> str "INR") as Hupper
    by (intros H; vm_compute in H; inversion H).
  split; [exact Hupper|]. split; [reflexivity|].
  pose proof (getINRRate_default_rate refPlatform t0 None (str "xyz")
                initialCache Hupper eq_refl) as Hrate.
  destruct (getINRRate refPlatform t0 None (VStr (str "xyz")) initialCache)
    as [rate st'] eqn:Hcall.
  apply Hrate. left.
  rewrite getINRRate_unfold in Hcall. injection Hcall as _ <-.
  vm_compute. reflexivity.
Defined.

Lemma toINR_rupees_witness :
  toUpperCase refPlatform (str "inr") = str "INR"
  /\ toINR refPlatform t0 None (VNum (Fin 499)) (VStr (str "inr")) initialCache
     = (Ok (VNum (Math_round (fmul refPlatform (Fin 499) (Fin 1)))),
        refresh t0 None initialCache).
Proof.
  split; [reflexivity|].
  apply (toINR_rupees refPlatform t0 None (str "inr") (Fin 499) initialCache);
    reflexivity.
Defined.

Lemma detectCurrency_codes_witness :
  includes mixedPrice [RUPEE] = true
  /\ detectCurrency refPlatform (VStr mixedPrice) = Ok (str "INR").
Proof.
  split; [reflexivity|].
  destruct (detectCurrency_codes refPlatform mixedPrice)
    as (code & Hcode & _ & Hrupee & _).
  rewrite Hcode. f_equal. apply Hrupee. reflexivity.
Defined.

Lemma getWebsiteName_www_witness :
  newURL refPlatform shopUrl
  = Some {| hostname := str "www.flipkart.com"; pathname := str "/p/red-shoes" |}
  /\ getWebsiteName refPlatform shopUrl = str "Flipkart".
Proof.
  split; [reflexivity|].
  apply (getWebsiteName_www refPlatform shopUrl
           {| hostname := str "www.flipkart.com"; pathname := str "/p/red-shoes" |}
           (str "flipkart") (str "com"));
    [reflexivity | reflexivity | repeat constructor; discriminate].
Defined.

Lemma getWebsiteName_no_dot_witness :
  newURL refPlatform notUrl = None
  /\ getWebsiteName refPlatform notUrl = str "Website".
Proof.
  split; [reflexivity|].
  apply (proj2 (getWebsiteName_no_dot refPlatform notUrl)). reflexivity.
Defined.

Lemma extractProductNameFromUrl_shape_witness :
  extractProductNameFromUrl refPlatform exampleUrl
  = Some (str "Amazing Wireless Headphones B08XYZ123")
  /\ (3 < length (str "Amazing Wireless Headphones B08XYZ123"))%nat
  /\ Forall (fun c => c <> ch "-" /\ c <> ch "_")
       (str "Amazing Wireless Headphones B08XYZ123")
  /\ headSpace (str "Amazing Wireless Headphones B08XYZ123") = false
  /\ lastSpace (str "Amazing Wireless Headphones B08XYZ123") = false.
Proof.
  split; [vm_compute; reflexivity|].
  apply (extractProductNameFromUrl_shape refPlatform exampleUrl).
  vm_compute. reflexivity.
Defined.

Lemma extractProductNameFromUrl_null_witness :
  newURL refPlatform numberUrl
  = Some {| hostname := str "example.com"; pathname := str "/dp/12345/" |}
  /\ extractProductNameFromUrl refPlatform numberUrl = None.
Proof.
  split; [reflexivity|].
  apply (proj2 (extractProductNameFromUrl_null refPlatform numberUrl)
           {| hostname := str "example.com"; pathname := str "/dp/12345/" |});
    [reflexivity|].
  change (split (ch "/") (str "/dp/12345/"))
    with [[]; str "dp"; str "12345"; []].
  constructor; [left; constructor|].
  constructor; [right; simpl; tauto|].
  constructor; [left; repeat constructor|].
  constructor; [left; constructor | constructor].
Defined.

Lemma scrape_no_server_error_witness :
  nonEmpty exampleUrl = true
  /\ exists body,
       fst (scrape refPlatform jsonWorld (Some exampleUrl) initialCache)
       = Json body.
Proof.
  split; [reflexivity|].
  apply (scrape_no_server_error refPlatform jsonWorld exampleUrl
           (str "Amazing Wireless Headphones B08XYZ123") initialCache);
    [reflexivity | vm_compute; reflexivity].
Defined.


Lemma scrape_product_name_witness :
  exists body,
    fst (scrape refPlatform stickerWorld (Some stickerUrl) initialCache)
    = Json body
    /\ blocked body = false
    /\ exists s,
         name body = VStr s
         /\ (3 <= length (trim s))%nat
         /\ includes (toLowerCase refPlatform s) (str "unknown") = false.
Proof.
  eexists. split; [vm_compute; reflexivity|]. split; [reflexivity|].
  match goal with
  | |- exists s, name ?b = _ /\ _ =>
      apply (scrape_product_name refPlatform stickerWorld (Some stickerUrl)
               initialCache b); [vm_compute; reflexivity | reflexivity]
  end.
Defined.

Lemma scrape_product_description_witness :
  exists body,
    fst (scrape refPlatform stickerWorld (Some stickerUrl) initialCache)
    = Json body
    /\ blocked body = false
    /\ ((exists items,
           description body = VArr items /\ (length items <= 3)%nat)
        \/ (exists s, description body = VStr s /\ (length s <= 3)%nat)).
Proof.
  eexists. split; [vm_compute; reflexivity|]. split; [reflexivity|].
  match goal with
  | |- (exists items, description ?b = _ /\ _) \/ _ =>
      apply (scrape_product_description refPlatform stickerWorld
               (Some stickerUrl) initialCache b);
        [vm_compute; reflexivity | reflexivity]
  end.
Defined.

Lemma scrape_price_rounded_witness :
  exists body,
    fst (scrape refPlatform stickerWorld (Some stickerUrl) initialCache)
    = Json body
    /\ ((price body = VNull
         /\ (blocked body = false ->
             snd (scrape refPlatform stickerWorld (Some stickerUrl) initialCache)
             = initialCache))
        \/ exists x, price body = VNum (Math_round x)
                     /\ (isFiniteb x = true ->
                         isInteger (Math_round x) = true)).
Proof.
  eexists. split; [vm_compute; reflexivity|].
  match goal with
  | |- (price ?b = _ /\ _) \/ _ =>
      apply (scrape_price_rounded refPlatform stickerWorld (Some stickerUrl)
               initialCache b); vm_compute; reflexivity
  end.
Defined.

Lemma scrape_fetch_strategy_witness :
  IS_CLOUD stickerWorld = true
  /\ fetchRenderedHTML stickerWorld stickerUrl
     <> fetchRenderedHTML stickerWorldBrowser stickerUrl
  /\ scrape refPlatform stickerWorld (Some stickerUrl) initialCache
     = scrape refPlatform stickerWorldBrowser (Some stickerUrl) initialCache.
Proof.
  split; [reflexivity|]. split; [discriminate|].
  apply (scrape_fetch_strategy refPlatform stickerWorld stickerWorldBrowser
           stickerUrl initialCache); try reflexivity.
  left. split; reflexivity.
Defined.


Lemma searchWithShopping_count_witness :
  exists products,
    searchWithShopping refPlatform (Some (str "key-1"))
      (Ok (Some [shoes1; shoes2; shoes3; shoes4])) liveConvert (Some notUrl)
    = Shopping products
    /\ length products = 3%nat.
Proof.
  destruct (searchWithShopping refPlatform (Some (str "key-1"))
              (Ok (Some [shoes1; shoes2; shoes3; shoes4])) liveConvert
              (Some notUrl)) as [products | r] eqn:Hsearch;
    [|vm_compute in Hsearch; discriminate Hsearch].
  exists products. split; [reflexivity|].
  destruct (searchWithShopping_count refPlatform _ _ _ _ _ Hsearch)
    as (data & Hdata & Hlen & _).
  injection Hdata as <-. exact Hlen.
Defined.

Lemma searchWithShopping_products_witness :
  exists products p,
    searchWithShopping refPlatform (Some (str "key-1"))
      (Ok (Some [shoes1; shoes2; shoes3; shoes4])) liveConvert (Some notUrl)
    = Shopping products
    /\ In p products
    /\ spPrice p = VNum (Fin 1299)
    /\ truthy (spName p) = true
    /\ truthy (spPriceText p) = true
    /\ truthy (spUrl p) = true
    /\ (1 <= length (spDescription p) <= 3)%nat
    /\ Forall (fun line => exists s, line = VStr s /\ nonEmpty s = true)
         (spDescription p).
Proof.
  eexists. eexists. split; [vm_compute; reflexivity|].
  split; [left; reflexivity|]. split; [reflexivity|].
  match goal with
  | |- truthy (spName ?p) = true /\ _ =>
      eapply (searchWithShopping_products refPlatform (Some (str "key-1"))
                (Ok (Some [shoes1; shoes2; shoes3; shoes4])) liveConvert
                notUrl _ p); [vm_compute; reflexivity | left; reflexivity]
  end.
Defined.


Lemma extractWithGemini_priority_witness :
  Forall (fun m => exists e,
            geminiAttempt quotaService keepText stickerPage stickerUrl m
            = Throw e) GEMINI_MODELS
  /\ extractWithGeminiOver quotaService keepText messageOf stickerPage stickerUrl
     = Throw (ServiceError
                (str "All Gemini models failed. Last error: quota exceeded")).
Proof.
  assert (Forall (fun m => exists e,
                    geminiAttempt quotaService keepText stickerPage stickerUrl m
                    = Throw e) GEMINI_MODELS) as Hall
    by (repeat constructor; eexists; reflexivity).
  split; [exact Hall|].
  destruct (proj2 (extractWithGemini_priority quotaService keepText messageOf
                     stickerPage stickerUrl) Hall) as (e & Hlast & Hthrow).
  rewrite Hthrow. injection Hlast as <-. reflexivity.
Defined.

Lemma geminiAttempt_no_json_witness :
  Forall (fun c => c <> ch "`" /\ c <> ch "{") refusalReply
  /\ geminiAttempt (replyService refusalReply) keepText stickerPage stickerUrl
       (str "gemini-2.0-flash")
     = Throw (ServiceError (str "No JSON in response")).
Proof.
  assert (Forall (fun c => c <> ch "`" /\ c <> ch "{") refusalReply) as Hplain
    by (repeat constructor; discriminate).
  split; [exact Hplain|].
  apply (geminiAttempt_no_json (replyService refusalReply) keepText
           stickerPage stickerUrl (str "gemini-2.0-flash") refusalReply);
    [reflexivity | exact Hplain].
Defined.

Lemma geminiAttempt_braces_witness :
  bracesReply
  = str "Here you are: " ++ ch "{" :: str "name: {first: 1}} and {more"
    ++ ch "}" :: str " follows"
  /\ geminiAttempt (replyService bracesReply) keepText stickerPage stickerUrl
       (str "gemini-2.0-flash")
     = Ok (VStr (str "{name: {first: 1}} and {more}")).
Proof.
  split; [reflexivity|].
  apply (geminiAttempt_braces (replyService bracesReply) keepText
           stickerPage stickerUrl (str "gemini-2.0-flash")
           (str "Here you are: ") (str "name: {first: 1}} and {more")
           (str " follows"));
    [reflexivity | | |]; repeat constructor; discriminate.
Defined.

Lemma geminiAttempt_fence_witness :
  fencedReply
  = str "Result: " ++ str "```json" ++ [10] ++ str "{name: 1}" ++ str "```"
    ++ str " see {this}"
  /\ geminiAttempt (replyService fencedReply) keepText stickerPage stickerUrl
       (str "gemini-2.0-flash")
     = Ok (VStr (str "{name: 1}")).
Proof.
  split; [reflexivity|].
  apply (geminiAttempt_fence (replyService fencedReply) keepText
           stickerPage stickerUrl (str "gemini-2.0-flash")
           (str "Result: ") [10] (str "{name: 1}") (str " see {this}"));
    [reflexivity | | | reflexivity | reflexivity |];
    repeat constructor; discriminate.
Defined.

Lemma priceMarks_lowest_witness :
  Forall sentPrice fourPrices
  /\ fourPrices !! 2%nat = Some (VNum (Fin 999))
  /\ exists lowest highest,
       priceMarks refPlatform fourPrices !! 2%nat = Some (lowest, highest)
       /\ (lowest = true <->
           exists n, VNum (Fin 999) = VNum n
                     /\ forall m, In (VNum m) fourPrices -> leNumber n m = true).
Proof.
  assert (Forall sentPrice fourPrices) as Hsent.
  { unfold fourPrices.
    constructor; [right; eexists; split; reflexivity|].
    constructor; [now left|].
    constructor; [right; eexists; split; reflexivity|].
    constructor; [right; eexists; split; reflexivity | constructor]. }
  split; [exact Hsent|]. split; [reflexivity|].
  apply (priceMarks_lowest refPlatform fourPrices 2 (VNum (Fin 999)) Hsent).
  reflexivity.
Defined.

Lemma priceMarks_fallback_witness :
  exists products,
    search refPlatform None (fun _ => Throw TypeError) (Some notUrl)
    = SearchJson products true
    /\ Forall (fun mark => mark = (false, false))
         (priceMarks refPlatform (map entryPrice products)).
Proof.
  eexists. split; [reflexivity|].
  eapply (priceMarks_fallback refPlatform None (fun _ => Throw TypeError) notUrl).
  reflexivity.
Defined.

Lemma getName_remembered_witness :
  getName None (Some (str "  Asha ")) = (str "Asha", Some (str "Asha"))
  /\ forall answer',
       getName (Some (str "Asha")) answer' = (str "Asha", Some (str "Asha")).
Proof.
  split; [reflexivity|].
  pose proof (getName_remembered None (Some (str "  Asha "))) as H.
  change (getName None (Some (str "  Asha ")))
    with (str "Asha", Some (str "Asha")) in H.
  destruct H as (_ & _ & H & _). apply H. reflexivity.
Defined.
